(** * Slide navigation of the design-influences presentation

    A shallow embedding of [src/app/page.tsx]: the slide registry [SLIDES],
    the navigation state kept by [DesignInfluencesPresentation] (the two
    [useState] cells), its three handlers [goToSlide], [nextSlide] and
    [prevSlide], the keyboard binding and its subscription, the transition
    variants, the parts of the rendered tree that depend on the state, the
    payload lookup [SlideContent] and the [SideNote] component.

    Conventions.
    - A JavaScript number that holds an integer is a [Z]; the two agree
      while the integer is at most [2^53] in absolute value.  The one
      division of the component, the width of the progress bar, is computed
      in IEEE 754 binary64 on [spec_float].
    - A React state cell is a field of [NavState]; a setter is a function on
      [NavState].  A handler is a closure of one render: it reads
      [currentSlide] as that render saw it, and its setters queue updates on
      the state pending since that render.  [goToSlide], [nextSlide] and
      [prevSlide] are a handler called once from the latest render;
      [goToSlide_from], [nextSlide_from] and [prevSlide_from] are the same
      handlers called when other calls of the same render came before.
    - [null] and [undefined] are [None]. *)

From Stdlib Require Import ZArith List String Ascii Bool Lia QArith.
From Stdlib Require Import DecimalString SpecFloat Qabs Permutation.
Import ListNotations.

Local Open Scope string_scope.
Local Open Scope Z_scope.

(** ** The slide registry *)

(** [type SlideId = typeof SLIDES[number]] is erased at run time: a slide
    identifier is a string. *)
Definition SlideId : Type := string.

(** [const SLIDES = [...] as const] (page.tsx, lines 68-90). *)
Definition SLIDES : list SlideId :=
  [ "title";
    "two-solutions";
    "influence-map";
    (* OS Solution - Desktop Paradigm *)
    "os-solution";
    "macos-intro";
    "mingei-intro";
    "boids-intro";
    "dithering-intro";
    (* OS2 Solution - PS4 Console *)
    "os2-solution";
    "ps4-intro";
    "ps4-principles";
    "tanaka-intro";
    "tanaka-principles";
    (* Common Ground *)
    "common-thread";
    "ma-concept";
    "comparison";
    "conclusion";
    "mockups" ].

(** [SLIDES.length]. *)
Definition SLIDES_length : Z := Z.of_nat (List.length SLIDES).

(** [SLIDES[i]] for an integer [i]: [undefined] outside the array. *)
Definition SLIDES_at (i : Z) : option SlideId :=
  if i <? 0 then None else nth_error SLIDES (Z.to_nat i).

(** ** Navigation state *)

(** The two state cells of the component:
    [const [currentSlide, setCurrentSlide] = useState(0)] and
    [const [direction, setDirection] = useState(0)]. *)
Record NavState : Type := mkNav {
  currentSlide : Z;
  direction : Z
}.

Definition initial : NavState := {| currentSlide := 0; direction := 0 |}.

(** [setDirection(d)]. *)
Definition setDirection (d : Z) (st : NavState) : NavState :=
  {| currentSlide := currentSlide st; direction := d |}.

(** [setCurrentSlide(v)] for a value and [setCurrentSlide(prev => f prev)]
    for an updater are both an updater here: the value form is the constant
    updater. *)
Definition setCurrentSlide (upd : Z -> Z) (st : NavState) : NavState :=
  {| currentSlide := upd (currentSlide st); direction := direction st |}.

(** A handler body is a sequence of setter calls, applied left to right. *)
Definition seq_setters (fs : list (NavState -> NavState)) (st : NavState) : NavState :=
  fold_left (fun s f => f s) fs st.

(** ** The handlers (page.tsx, lines 98-117) *)

(** [[
  const goToSlide = useCallback((index: number) => {
    if (index >= 0 && index < SLIDES.length) {
      setDirection(index > currentSlide ? 1 : -1);
      setCurrentSlide(index);
    }
  }, [currentSlide]);
]] *)
Definition goToSlide (index : Z) (st : NavState) : NavState :=
  let cur := currentSlide st in
  if (index >=? 0) && (index <? SLIDES_length) then
    seq_setters
      [ setDirection (if index >? cur then 1 else -1);
        setCurrentSlide (fun _ => index) ] st
  else st.

(** [[
  const nextSlide = useCallback(() => {
    if (currentSlide < SLIDES.length - 1) {
      setDirection(1);
      setCurrentSlide(prev => prev + 1);
    }
  }, [currentSlide]);
]] *)
Definition nextSlide (st : NavState) : NavState :=
  let cur := currentSlide st in
  if cur <? SLIDES_length - 1 then
    seq_setters
      [ setDirection 1;
        setCurrentSlide (fun prev => prev + 1) ] st
  else st.

(** [[
  const prevSlide = useCallback(() => {
    if (currentSlide > 0) {
      setDirection(-1);
      setCurrentSlide(prev => prev - 1);
    }
  }, [currentSlide]);
]] *)
Definition prevSlide (st : NavState) : NavState :=
  let cur := currentSlide st in
  if cur >? 0 then
    seq_setters
      [ setDirection (-1);
        setCurrentSlide (fun prev => prev - 1) ] st
  else st.

(** ** The handlers between two renders

    The closures [goToSlide], [nextSlide] and [prevSlide] of one render keep
    the [currentSlide] of that render, [rendered]: the guards and the
    comparison of [goToSlide] read it.  The setters queue their updates, and
    React applies the queue in order before the next render: [prev] in an
    updater is the position [pending] after the updates queued so far. *)

Definition goToSlide_from (rendered : NavState) (index : Z) (pending : NavState)
  : NavState :=
  let cur := currentSlide rendered in
  if (index >=? 0) && (index <? SLIDES_length) then
    seq_setters
      [ setDirection (if index >? cur then 1 else -1);
        setCurrentSlide (fun _ => index) ] pending
  else pending.

Definition nextSlide_from (rendered : NavState) (pending : NavState) : NavState :=
  let cur := currentSlide rendered in
  if cur <? SLIDES_length - 1 then
    seq_setters
      [ setDirection 1;
        setCurrentSlide (fun prev => prev + 1) ] pending
  else pending.

Definition prevSlide_from (rendered : NavState) (pending : NavState) : NavState :=
  let cur := currentSlide rendered in
  if cur >? 0 then
    seq_setters
      [ setDirection (-1);
        setCurrentSlide (fun prev => prev - 1) ] pending
  else pending.

(** ** Sequences of handler calls *)

Inductive Call : Type :=
  | CallNext                 (* nextSlide()      *)
  | CallPrev                 (* prevSlide()      *)
  | CallGoTo (index : Z).    (* goToSlide(index) *)

(** One call made from the latest render, nothing else pending. *)
Definition call (c : Call) (st : NavState) : NavState :=
  match c with
  | CallNext => nextSlide st
  | CallPrev => prevSlide st
  | CallGoTo index => goToSlide index st
  end.

(** A sequence of calls with a render after every call: each call is made
    from the render of the state the call before it left. *)
Definition run (cs : list Call) (st : NavState) : NavState :=
  fold_left (fun s c => call c s) cs st.

(** One call made by the closures of the render of [rendered], on the state
    pending since that render. *)
Definition call_from (rendered : NavState) (c : Call) (pending : NavState)
  : NavState :=
  match c with
  | CallNext => nextSlide_from rendered pending
  | CallPrev => prevSlide_from rendered pending
  | CallGoTo index => goToSlide_from rendered index pending
  end.

(** The calls made between one render and the next, in order: the state the
    next render shows. *)
Definition batch (cs : list Call) (rendered : NavState) : NavState :=
  fold_left (fun pending c => call_from rendered c pending) cs rendered.

(** Any finite sequence of calls, cut where the component renders: one
    batch per render. *)
Definition schedule (bs : list (list Call)) (st : NavState) : NavState :=
  fold_left (fun rendered cs => batch cs rendered) bs st.

(** The sequence in which the component renders after every call. *)
Definition render_after_each (cs : list Call) : list (list Call) :=
  map (fun c => [c]) cs.

(** No render has more than one call to handle. *)
Definition one_call_per_render (bs : list (list Call)) : Prop :=
  Forall (fun cs => (List.length cs <= 1)%nat) bs.

(** The bounds of the registry, as a predicate on states. *)
Definition in_bounds (st : NavState) : Prop :=
  0 <= currentSlide st < SLIDES_length.

(** ** Keyboard binding (page.tsx, lines 120-133) *)

(** The outcome of [handleKeyDown]: whether [e.preventDefault()] was called,
    and the state after the handler. *)
Record KeyOutcome : Type := mkKeyOutcome {
  defaultPrevented : bool;
  after_key : NavState
}.

(** [[
    const handleKeyDown = (e: KeyboardEvent) => {
      if (e.key === 'ArrowRight' || e.key === ' ') {
        e.preventDefault();
        nextSlide();
      } else if (e.key === 'ArrowLeft') {
        e.preventDefault();
        prevSlide();
      }
    };
]] *)
Definition handleKeyDown (key : string) (st : NavState) : KeyOutcome :=
  if (key =? "ArrowRight")%string || (key =? " ")%string then
    {| defaultPrevented := true; after_key := nextSlide st |}
  else if (key =? "ArrowLeft")%string then
    {| defaultPrevented := true; after_key := prevSlide st |}
  else
    {| defaultPrevented := false; after_key := st |}.

(** ** Payload lookup (page.tsx, lines 219-260) *)

(** The slide components that [SlideContent] mounts.  Each is a function
    component of page.tsx that returns an element; none returns [null]. *)
Inductive Component : Type :=
  | SlideTitle
  | SlideTwoSolutions
  | SlideInfluenceMap
  | SlideOSSolution
  | SlideOS2Solution
  | SlideTanakaIntro
  | SlideTanakaPrinciples
  | SlidePS4Intro
  | SlidePS4Principles
  | SlideMingeiIntro
  | SlideBoidsIntro
  | SlideDitheringIntro
  | SlideMacOSIntro
  | SlideCommonThread
  | SlideMaConcept
  | SlideComparison
  | SlideConclusion
  | SlideMockups.

(** The [case] labels of the [switch] of [SlideContent], in source order,
    each with the component its branch returns. *)
Definition SlideContent_cases : list (string * Component) :=
  [ ("title", SlideTitle);
    ("two-solutions", SlideTwoSolutions);
    ("influence-map", SlideInfluenceMap);
    ("os-solution", SlideOSSolution);
    ("os2-solution", SlideOS2Solution);
    ("tanaka-intro", SlideTanakaIntro);
    ("tanaka-principles", SlideTanakaPrinciples);
    ("ps4-intro", SlidePS4Intro);
    ("ps4-principles", SlidePS4Principles);
    ("mingei-intro", SlideMingeiIntro);
    ("boids-intro", SlideBoidsIntro);
    ("dithering-intro", SlideDitheringIntro);
    ("macos-intro", SlideMacOSIntro);
    ("common-thread", SlideCommonThread);
    ("ma-concept", SlideMaConcept);
    ("comparison", SlideComparison);
    ("conclusion", SlideConclusion);
    ("mockups", SlideMockups) ].

(** A [switch] over string labels whose branches all [return]: the first
    label strictly equal to the scrutinee wins, [default: return null]
    otherwise. *)
Fixpoint switch_return (cases : list (string * Component)) (x : string)
  : option Component :=
  match cases with
  | [] => None
  | (label, c) :: rest =>
      if (x =? label)%string then Some c else switch_return rest x
  end.

(** [function SlideContent({ slideId })]. *)
Definition SlideContent (slideId : SlideId) : option Component :=
  switch_return SlideContent_cases slideId.

(** ** Double precision

    The numbers of the progress bar are IEEE 754 binary64 numbers; they are
    computed on [spec_float]. *)

Definition binary64_prec : Z := 53.
Definition binary64_emax : Z := 1024.

(** An integer as a binary64 number. *)
Definition binary64_of_Z (z : Z) : spec_float :=
  match z with
  | Z0 => S754_zero false
  | Zpos m => binary_normalize binary64_prec binary64_emax (Zpos m) 0 false
  | Zneg m =>
      SFopp (binary_normalize binary64_prec binary64_emax (Zpos m) 0 false)
  end.

(** The value of a finite binary64 number. *)
Definition binary64_value (x : spec_float) : option Q :=
  match x with
  | S754_zero _ => Some 0%Q
  | S754_finite s m e =>
      Some (inject_Z (if s then Zneg m else Zpos m) * Qpower 2 e)%Q
  | S754_infinity _ | S754_nan => None
  end.

(** [(currentSlide + 1) / SLIDES.length] in binary64. *)
Definition progress_ratio_binary64 (st : NavState) : spec_float :=
  SFdiv binary64_prec binary64_emax
    (binary64_of_Z (currentSlide st + 1)) (binary64_of_Z SLIDES_length).

(** [((currentSlide + 1) / SLIDES.length) * 100] in binary64. *)
Definition progress_width_binary64 (st : NavState) : spec_float :=
  SFmul binary64_prec binary64_emax
    (progress_ratio_binary64 st) (binary64_of_Z 100).

(** [x] is finite and within the relative distance [eps] of the positive
    rational [q]. *)
Definition within_relative (eps : Q) (x : spec_float) (q : Q) : bool :=
  match binary64_value x with
  | Some v => Qle_bool (Qabs (v - q)) (eps * q)
  | None => false
  end.

(** The fraction [(p + 1) / N] the fill ratio stands for at position [p]. *)
Definition fill_fraction (p : Z) : Q := (p + 1) # Z.to_pos SLIDES_length.

(** ** The rendered tree (page.tsx, lines 150-213) *)

(** A child of a JSX element, as far as the counter needs: a number
    expression or a literal text. *)
Inductive Child : Type :=
  | ChildNumber (n : Z)
  | ChildText (s : string).

(** The text React writes for a number child: its decimal notation. *)
Definition Number_toString (n : Z) : string :=
  NilZero.string_of_int (Z.to_int n).

Definition child_text (c : Child) : string :=
  match c with
  | ChildNumber n => Number_toString n
  | ChildText s => s
  end.

(** The text of an element: the texts of its children, in order. *)
Definition textContent (cs : list Child) : string :=
  String.concat "" (map child_text cs).

(** A [<button>] with its [disabled] attribute and its [onClick] handler. *)
Record Button : Type := mkButton {
  disabled : bool;
  onClick : NavState -> NavState
}.

(** A dot of the indicator: whether it carries the highlighted class
    ([i === currentSlide]) and its [onClick]. *)
Record Dot : Type := mkDot {
  highlighted : bool;
  dot_onClick : NavState -> NavState
}.

(** What the component returns for a state. *)
Record View : Type := mkView {
  progress_ratio : spec_float;   (* (currentSlide + 1) / SLIDES.length        *)
  progress_width : spec_float;   (* the percentage of the width, ratio * 100  *)
  content : option Component;    (* <SlideContent slideId={SLIDES[currentSlide]} /> *)
  prevButton : Button;
  dots : list Dot;
  nextButton : Button;
  counter : list Child           (* {currentSlide + 1} / {SLIDES.length}      *)
}.

(** [xs.map((_, i) => f i)]. *)
Definition mapi_index {A B : Type} (f : Z -> B) (xs : list A) : list B :=
  map (fun i => f (Z.of_nat i)) (seq 0 (List.length xs)).

Definition render (st : NavState) : View :=
  let cur := currentSlide st in
  {| progress_ratio := progress_ratio_binary64 st;
     progress_width := progress_width_binary64 st;
     content :=
       match SLIDES_at cur with
       | Some slideId => SlideContent slideId
       | None => None
       end;
     prevButton := {| disabled := (cur =? 0); onClick := prevSlide |};
     dots :=
       mapi_index
         (fun i => {| highlighted := (i =? cur); dot_onClick := goToSlide i |})
         SLIDES;
     nextButton :=
       {| disabled := (cur =? SLIDES_length - 1); onClick := nextSlide |};
     counter :=
       [ ChildNumber (cur + 1); ChildText " / "; ChildNumber SLIDES_length ] |}.

(** ** User input *)

Inductive Event : Type :=
  | KeyDown (key : string)
  | ClickPrev
  | ClickNext
  | ClickDot (i : nat).

(** A click on a disabled button fires no handler. *)
Definition click (b : Button) (st : NavState) : NavState :=
  if disabled b then st else onClick b st.

(** One event on the tree rendered for [st]; a dot that was not rendered
    cannot be clicked. *)
Definition dispatch (e : Event) (st : NavState) : NavState :=
  match e with
  | KeyDown key => after_key (handleKeyDown key st)
  | ClickPrev => click (prevButton (render st)) st
  | ClickNext => click (nextButton (render st)) st
  | ClickDot i =>
      match nth_error (dots (render st)) i with
      | Some d => dot_onClick d st
      | None => st
      end
  end.

(** A sequence of events with a render after every event: each event is
    handled by the closures of the render of the state the event before it
    left. *)
Definition dispatch_all (es : list Event) (st : NavState) : NavState :=
  fold_left (fun s e => dispatch e s) es st.

(** ** Events between two renders *)

(** [handleKeyDown] of the render of [rendered], on the pending state. *)
Definition handleKeyDown_from (rendered : NavState) (key : string)
    (pending : NavState) : KeyOutcome :=
  if (key =? "ArrowRight")%string || (key =? " ")%string then
    {| defaultPrevented := true; after_key := nextSlide_from rendered pending |}
  else if (key =? "ArrowLeft")%string then
    {| defaultPrevented := true; after_key := prevSlide_from rendered pending |}
  else
    {| defaultPrevented := false; after_key := pending |}.

(** One event on the tree rendered for [rendered], handled by the closures
    of that render. *)
Definition dispatch_from (rendered : NavState) (e : Event) (pending : NavState)
  : NavState :=
  match e with
  | KeyDown key => after_key (handleKeyDown_from rendered key pending)
  | ClickPrev =>
      if disabled (prevButton (render rendered)) then pending
      else prevSlide_from rendered pending
  | ClickNext =>
      if disabled (nextButton (render rendered)) then pending
      else nextSlide_from rendered pending
  | ClickDot i =>
      if (i <? List.length (dots (render rendered)))%nat
      then goToSlide_from rendered (Z.of_nat i) pending
      else pending
  end.

(** The events handled between one render and the next. *)
Definition event_batch (es : list Event) (rendered : NavState) : NavState :=
  fold_left (fun pending e => dispatch_from rendered e pending) es rendered.

(** Any finite sequence of events, cut where the component renders. *)
Definition event_schedule (ebs : list (list Event)) (st : NavState) : NavState :=
  fold_left (fun rendered es => event_batch es rendered) ebs st.

(** ** The counter readout the specification asks for *)

(** The decimal numeral of a non-negative integer, most significant digit
    first, written before [acc]. *)
Fixpoint decimal_digits (fuel : nat) (n : Z) (acc : string) : string :=
  match fuel with
  | O => acc
  | S fuel' =>
      let acc' := String (ascii_of_nat (48 + Z.to_nat (n mod 10))) acc in
      if n <? 10 then acc' else decimal_digits fuel' (n / 10) acc'
  end.

Definition decimal_numeral (n : Z) : string :=
  if n <? 0
  then String "-" (decimal_digits (S (Z.to_nat (Z.log2 (- n)))) (- n) "")
  else decimal_digits (S (Z.to_nat (Z.log2 n))) n "".

(** The readout ["{p+1} / {N}"] of the specification at position [p]. *)
Definition spec_counter_readout (p n : Z) : string :=
  decimal_numeral (p + 1) ++ " / " ++ decimal_numeral n.

(** The end-to-end scenario, with the number of right-arrow presses that
    reach the last slide and the position of that slide as parameters:
    [presses] right arrows from the initial state reach [last] with the
    next button disabled, one more right arrow stays there, a click on dot 3
    goes to 3 backwards, and three left arrows reach 0 with the previous
    button disabled. *)
Definition scenario (presses : nat) (last : Z) : Prop :=
  let s1 := dispatch_all (repeat (KeyDown "ArrowRight") presses) initial in
  let s2 := dispatch (KeyDown "ArrowRight") s1 in
  let s3 := dispatch (ClickDot 3) s2 in
  let s4 := dispatch_all (repeat (KeyDown "ArrowLeft") 3) s3 in
  (currentSlide s1 = last /\ disabled (nextButton (render s1)) = true) /\
  currentSlide s2 = last /\
  (currentSlide s3 = 3 /\ direction s3 = -1) /\
  (currentSlide s4 = 0 /\ disabled (prevButton (render s4)) = true).

(** ** Transition variants (page.tsx, lines 135-148) *)

(** The target of a variant: the horizontal offset and the opacity. *)
Record Target : Type := mkTarget {
  target_x : string;
  target_opacity : Z
}.

(** [[
    enter: (dir: number) => ({ x: dir > 0 ? '100%' : '-100%', opacity: 0 }),
]] *)
Definition slideVariants_enter (dir : Z) : Target :=
  {| target_x := if dir >? 0 then "100%" else "-100%"; target_opacity := 0 |}.

(** [[
    exit: (dir: number) => ({ x: dir > 0 ? '-100%' : '100%', opacity: 0 }),
]] *)
Definition slideVariants_exit (dir : Z) : Target :=
  {| target_x := if dir >? 0 then "-100%" else "100%"; target_opacity := 0 |}.

(** The slide container is keyed by [currentSlide] and both the container
    and [AnimatePresence] receive [custom={direction}]: when the key changes
    between two renders, the old container leaves by [exit] and the new one
    comes in by [enter], both at the direction of the new render; when the
    key stays, nothing is mounted or unmounted. *)
Definition transition_between (before after : NavState) : option (Target * Target) :=
  if currentSlide after =? currentSlide before then None
  else Some (slideVariants_exit (direction after),
             slideVariants_enter (direction after)).

(** ** Shapes of states and rejected calls *)

(** The shape of a state: initial, or going backwards anywhere, or going
    forwards past the first slide. *)
Definition reachable_shape (st : NavState) : Prop :=
  st = initial \/
  (0 <= currentSlide st < SLIDES_length /\ direction st = -1) \/
  (1 <= currentSlide st < SLIDES_length /\ direction st = 1).


(** The guard of [goToSlide], as a test on a call: [nextSlide] and
    [prevSlide] take no argument that could be rejected. *)
Definition passes_guard (c : Call) : bool :=
  match c with
  | CallGoTo index => (index >=? 0) && (index <? SLIDES_length)
  | CallNext | CallPrev => true
  end.

(** The handler calls an event amounts to: a bound key or an enabled or
    disabled button is one call, a rendered dot is [goToSlide] at its index,
    any other key is no call. *)
Definition calls_of_event (e : Event) : list Call :=
  match e with
  | KeyDown key =>
      if (key =? "ArrowRight")%string || (key =? " ")%string then [CallNext]
      else if (key =? "ArrowLeft")%string then [CallPrev]
      else []
  | ClickPrev => [CallPrev]
  | ClickNext => [CallNext]
  | ClickDot i =>
      if (i <? List.length SLIDES)%nat then [CallGoTo (Z.of_nat i)] else []
  end.

(** The indices of the dots that carry the highlighted class. *)
Definition highlighted_indices (ds : list Dot) : list nat :=
  map fst
    (filter (fun id => highlighted (snd id))
       (combine (seq 0 (List.length ds)) ds)).

(** ** Side notes (page.tsx, lines 10-57) *)

(** An object literal, as its own keys in source order with their values;
    [obj[key]] is [undefined] for a key the literal does not have. *)
Fixpoint object_get {V : Type} (obj : list (string * V)) (key : string) : option V :=
  match obj with
  | [] => None
  | (k, v) :: rest => if (key =? k)%string then Some v else object_get rest key
  end.

(** The icon components of lucide-react that [SideNote] uses. *)
Inductive Icon : Type := Info | Lightbulb | Quote | Bookmark.

Definition SideNote_icons : list (string * Icon) :=
  [ ("info", Info);
    ("insight", Lightbulb);
    ("quote", Quote);
    ("tip", Bookmark) ].

Definition SideNote_colors : list (string * string) :=
  [ ("info", "border-blue-500/30 bg-blue-500/5 text-blue-300");
    ("insight", "border-yellow-500/30 bg-yellow-500/5 text-yellow-300");
    ("quote", "border-purple-500/30 bg-purple-500/5 text-purple-300");
    ("tip", "border-green-500/30 bg-green-500/5 text-green-300") ].

Definition SideNote_positions : list (string * string) :=
  [ ("right", "right-4 top-1/4");
    ("left", "left-4 top-1/4");
    ("bottom-left", "left-4 bottom-20");
    ("bottom-right", "right-4 bottom-20") ].

(** [s.includes(needle)]: [needle] occurs somewhere in [s]. *)
Fixpoint includes (needle s : string) : bool :=
  if prefix needle s then true
  else
    match s with
    | EmptyString => false
    | String _ rest => includes needle rest
    end.

(** What a template literal writes for an interpolated string value that
    may be [undefined]. *)
Definition interpolate (v : option string) : string :=
  match v with
  | Some s => s
  | None => "undefined"
  end.

(** The properties of a [SideNote] element, [children] apart; a property
    that is not passed is [None] and takes its default. *)
Record SideNoteProps : Type := mkSideNoteProps {
  prop_type : option string;
  prop_position : option string;
  prop_delay : option Q
}.

(** What [SideNote] returns, as far as it depends on the properties. *)
Record SideNoteElement : Type := mkSideNoteElement {
  note_className : string;
  note_initial_x : Z;
  note_delay : Q;
  note_icon : option Icon
}.

(** [[
function SideNote({ children, type = 'info', position = 'right', delay = 0.5 }) {
  ...
  return (
    <motion.div
      className={`absolute ${positions[position]} max-w-[200px] p-3 border rounded-lg ${colors[type]} text-xs leading-relaxed z-40`}
      initial={{ opacity: 0, x: position.includes('right') ? 20 : -20 }}
      animate={{ opacity: 1, x: 0 }}
      transition={{ delay, duration: 0.5 }}
    > ... {icons[type]} ...
]] *)
Definition SideNote (props : SideNoteProps) : SideNoteElement :=
  let type := match prop_type props with Some t => t | None => "info" end in
  let position := match prop_position props with Some p => p | None => "right" end in
  let delay := match prop_delay props with Some d => d | None => (1 # 2)%Q end in
  {| note_className :=
       "absolute " ++ interpolate (object_get SideNote_positions position)
       ++ " max-w-[200px] p-3 border rounded-lg "
       ++ interpolate (object_get SideNote_colors type)
       ++ " text-xs leading-relaxed z-40";
     note_initial_x := if includes "right" position then 20 else -20;
     note_delay := delay;
     note_icon := object_get SideNote_icons type |}.

(** ** The keyboard subscription (page.tsx, lines 120-133) *)

(** A listener registered on [window]: the event type and the identity of
    the callback, a fresh one for each closure [handleKeyDown]. *)
Definition Listener : Type := (string * nat)%type.

Definition Listener_eqb (a b : Listener) : bool :=
  (fst a =? fst b)%string && (snd a =? snd b)%nat.

(** [window.addEventListener(type, callback)]: a listener that is already
    registered is not registered again. *)
Definition addEventListener (type : string) (callback : nat)
    (listeners : list Listener) : list Listener :=
  if existsb (Listener_eqb (type, callback)) listeners then listeners
  else listeners ++ [(type, callback)].

(** [window.removeEventListener(type, callback)]. *)
Fixpoint removeEventListener (type : string) (callback : nat)
    (listeners : list Listener) : list Listener :=
  match listeners with
  | [] => []
  | l :: rest =>
      if Listener_eqb (type, callback) l then rest
      else l :: removeEventListener type callback rest
  end.

(** The body of the effect: it registers [handleKeyDown] and returns the
    function that removes it.
[[
    window.addEventListener('keydown', handleKeyDown);
    return () => window.removeEventListener('keydown', handleKeyDown);
]] *)
Definition keyboard_effect (handleKeyDown : nat) (listeners : list Listener)
  : list Listener * (list Listener -> list Listener) :=
  (addEventListener "keydown" handleKeyDown listeners,
   removeEventListener "keydown" handleKeyDown).

(** The listeners of [window] and the cleanup React holds for the effect. *)
Record Subscription : Type := mkSubscription {
  listeners_of : list Listener;
  cleanup_of : option (list Listener -> list Listener)
}.

(** The life of the effect: it runs after the first render and after every
    render in which [nextSlide] or [prevSlide] changed, each time with the
    [handleKeyDown] of that render; the component is unmounted once. *)
Inductive Lifecycle : Type :=
  | EffectRun (handleKeyDown : nat)
  | Unmount.

(** React calls the cleanup of the previous run before the next run and at
    unmount. *)
Definition lifecycle_step (s : Subscription) (e : Lifecycle) : Subscription :=
  let cleaned :=
    match cleanup_of s with
    | Some cleanup => cleanup (listeners_of s)
    | None => listeners_of s
    end in
  match e with
  | EffectRun handleKeyDown =>
      {| listeners_of := fst (keyboard_effect handleKeyDown cleaned);
         cleanup_of := Some (snd (keyboard_effect handleKeyDown cleaned)) |}
  | Unmount => {| listeners_of := cleaned; cleanup_of := None |}
  end.

Definition lifecycle (es : list Lifecycle) (s : Subscription) : Subscription :=
  fold_left lifecycle_step es s.

(** * Properties *)

(** ** The registry *)

Lemma SLIDES_length_eq : SLIDES_length = 18.
Proof. reflexivity. Qed.

Lemma SLIDES_length_pos : 0 < SLIDES_length.
Proof. rewrite SLIDES_length_eq. lia. Qed.

Lemma SLIDES_NoDup : NoDup SLIDES.
Proof.
  unfold SLIDES.
  repeat (constructor; [ cbn; intuition discriminate | ]).
  constructor.
Qed.

Lemma SLIDES_at_in_range (i : Z) :
  0 <= i < SLIDES_length -> exists slideId, SLIDES_at i = Some slideId /\ In slideId SLIDES.
Proof.
  intros [Hlo Hhi]. unfold SLIDES_at.
  destruct (Z.ltb_spec i 0) as [Hneg | _]; [lia |].
  destruct (nth_error SLIDES (Z.to_nat i)) as [slideId |] eqn:E.
  - exists slideId. split; [reflexivity | eapply nth_error_In; eassumption].
  - apply nth_error_None in E. unfold SLIDES_length in Hhi. lia.
Qed.

Lemma SLIDES_at_out_of_range (i : Z) :
  i < 0 \/ SLIDES_length <= i -> SLIDES_at i = None.
Proof.
  intros H. unfold SLIDES_at.
  destruct (Z.ltb_spec i 0) as [_ | Hge]; [reflexivity |].
  apply nth_error_None. unfold SLIDES_length in H. lia.
Qed.

(** ** The handlers, by cases on their guards *)

Lemma goToSlide_in_range (index : Z) (st : NavState) :
  0 <= index < SLIDES_length ->
  goToSlide index st =
    {| currentSlide := index;
       direction := if index >? currentSlide st then 1 else -1 |}.
Proof.
  intros [Hlo Hhi]. unfold goToSlide.
  destruct (Z.geb_spec index 0) as [_ | Hneg]; [| lia].
  destruct (Z.ltb_spec index SLIDES_length) as [_ | Hbig]; [| lia].
  reflexivity.
Qed.

Lemma goToSlide_out_of_range (index : Z) (st : NavState) :
  index < 0 \/ SLIDES_length <= index -> goToSlide index st = st.
Proof.
  intros H. unfold goToSlide.
  destruct (Z.geb_spec index 0) as [Hge | _]; [| reflexivity].
  destruct (Z.ltb_spec index SLIDES_length) as [Hlt | _]; [lia | reflexivity].
Qed.

Lemma nextSlide_inner (st : NavState) :
  currentSlide st < SLIDES_length - 1 ->
  nextSlide st = {| currentSlide := currentSlide st + 1; direction := 1 |}.
Proof.
  intros H. unfold nextSlide.
  destruct (Z.ltb_spec (currentSlide st) (SLIDES_length - 1)); [reflexivity | lia].
Qed.

Lemma nextSlide_blocked (st : NavState) :
  SLIDES_length - 1 <= currentSlide st -> nextSlide st = st.
Proof.
  intros H. unfold nextSlide.
  destruct (Z.ltb_spec (currentSlide st) (SLIDES_length - 1)); [lia | reflexivity].
Qed.

Lemma prevSlide_inner (st : NavState) :
  0 < currentSlide st ->
  prevSlide st = {| currentSlide := currentSlide st - 1; direction := -1 |}.
Proof.
  intros H. unfold prevSlide.
  destruct (Z.gtb_spec (currentSlide st) 0); [reflexivity | lia].
Qed.

Lemma prevSlide_blocked (st : NavState) :
  currentSlide st <= 0 -> prevSlide st = st.
Proof.
  intros H. unfold prevSlide.
  destruct (Z.gtb_spec (currentSlide st) 0); [lia | reflexivity].
Qed.

(** ** Bounds *)

Lemma initial_in_bounds : in_bounds initial.
Proof. unfold in_bounds, initial. cbn [currentSlide]. pose proof SLIDES_length_pos. lia. Qed.

Lemma goToSlide_in_bounds (index : Z) (st : NavState) :
  in_bounds st -> in_bounds (goToSlide index st).
Proof.
  intros Hst.
  destruct (Z_lt_le_dec index 0) as [Hneg | Hge].
  - rewrite goToSlide_out_of_range by lia. exact Hst.
  - destruct (Z_lt_le_dec index SLIDES_length) as [Hlt | Hbig].
    + rewrite goToSlide_in_range by lia. unfold in_bounds. cbn [currentSlide]. lia.
    + rewrite goToSlide_out_of_range by lia. exact Hst.
Qed.

Lemma nextSlide_in_bounds (st : NavState) :
  in_bounds st -> in_bounds (nextSlide st).
Proof.
  unfold in_bounds. intros Hst.
  destruct (Z_lt_le_dec (currentSlide st) (SLIDES_length - 1)).
  - rewrite nextSlide_inner by assumption. cbn [currentSlide]. lia.
  - rewrite nextSlide_blocked by assumption. exact Hst.
Qed.

Lemma prevSlide_in_bounds (st : NavState) :
  in_bounds st -> in_bounds (prevSlide st).
Proof.
  unfold in_bounds. intros Hst.
  destruct (Z_lt_le_dec 0 (currentSlide st)).
  - rewrite prevSlide_inner by assumption. cbn [currentSlide]. lia.
  - rewrite prevSlide_blocked by lia. exact Hst.
Qed.

Lemma call_in_bounds (c : Call) (st : NavState) :
  in_bounds st -> in_bounds (call c st).
Proof.
  destruct c; cbn;
    auto using nextSlide_in_bounds, prevSlide_in_bounds, goToSlide_in_bounds.
Qed.

Lemma run_in_bounds (cs : list Call) :
  forall st, in_bounds st -> in_bounds (run cs st).
Proof.
  unfold run. induction cs as [| c cs IH]; intros st Hst; cbn.
  - exact Hst.
  - apply IH, call_in_bounds, Hst.
Qed.

(** ** Calls between two renders *)

(** A call with nothing pending is the call from the latest render. *)
Lemma call_from_latest (c : Call) (st : NavState) :
  call_from st c st = call c st.
Proof. destruct c; reflexivity. Qed.

Lemma batch_nil (st : NavState) : batch [] st = st.
Proof. reflexivity. Qed.

Lemma batch_single (c : Call) (st : NavState) : batch [c] st = call c st.
Proof. unfold batch. cbn [fold_left]. apply call_from_latest. Qed.

Lemma schedule_cons (cs : list Call) (bs : list (list Call)) (st : NavState) :
  schedule (cs :: bs)%list st = schedule bs (batch cs st).
Proof. reflexivity. Qed.

Lemma schedule_app (bs1 bs2 : list (list Call)) (st : NavState) :
  schedule (bs1 ++ bs2)%list st = schedule bs2 (schedule bs1 st).
Proof. unfold schedule. apply fold_left_app. Qed.

(** With a render after every call, [schedule] is [run]. *)
Lemma schedule_render_after_each (cs : list Call) :
  forall st, schedule (render_after_each cs) st = run cs st.
Proof.
  induction cs as [| c cs IH]; intros st; [reflexivity |].
  cbn [render_after_each map]. rewrite schedule_cons, batch_single.
  exact (IH (call c st)).
Qed.

Lemma schedule_one_call_per_render (bs : list (list Call)) :
  one_call_per_render bs ->
  forall st, schedule bs st = run (List.concat bs) st.
Proof.
  unfold one_call_per_render.
  induction 1 as [| cs bs Hcs _ IH]; intros st; [reflexivity |].
  rewrite schedule_cons, IH. cbn [List.concat].
  destruct cs as [| c [| c' cs]]; cbn [List.length] in Hcs.
  - reflexivity.
  - rewrite batch_single. reflexivity.
  - lia.
Qed.

(** C1: the code does not keep the bounds over every sequence of calls.
    [nextSlide] and [prevSlide] test the position of the render they were
    created in and then update the pending position, so calls made from one
    render all pass the test: after [goToSlide(16)] and a render, two
    [nextSlide()] calls before the next render leave position 18, which is
    the length of the registry; after [nextSlide()] and a render, two
    [prevSlide()] calls leave position -1; and eighteen [nextSlide()] calls
    from the first render leave position 18. *)
Theorem calls_from_one_render_leave_the_registry :
  schedule [[CallGoTo 16]; [CallNext; CallNext]] initial
    = {| currentSlide := 18; direction := 1 |} /\
  SLIDES_length
    <= currentSlide (schedule [[CallGoTo 16]; [CallNext; CallNext]] initial) /\
  schedule [[CallNext]; [CallPrev; CallPrev]] initial
    = {| currentSlide := -1; direction := -1 |} /\
  batch (repeat CallNext 18) initial
    = {| currentSlide := 18; direction := 1 |}.
Proof.
  assert (H16 : schedule [[CallGoTo 16]; [CallNext; CallNext]] initial
                = {| currentSlide := 18; direction := 1 |}) by reflexivity.
  split; [exact H16 |].
  split; [rewrite H16, SLIDES_length_eq; cbn [currentSlide]; lia |].
  split; reflexivity.
Qed.

(** ** Boundaries and rejected targets *)

(** C3: in every state whose position is 0, [prevSlide()] leaves the position
    unchanged, and in every state whose position is the last one, N - 1,
    [nextSlide()] leaves the position unchanged; here the whole state, the
    direction included, stays as it was. *)
Theorem no_op_at_boundaries :
  forall d : Z,
    prevSlide {| currentSlide := 0; direction := d |}
      = {| currentSlide := 0; direction := d |} /\
    nextSlide {| currentSlide := SLIDES_length - 1; direction := d |}
      = {| currentSlide := SLIDES_length - 1; direction := d |}.
Proof.
  intros d. split.
  - apply prevSlide_blocked. cbn [currentSlide]. lia.
  - apply nextSlide_blocked. cbn [currentSlide]. lia.
Qed.

(** C4: whatever the state before the call, [goToSlide(-1)] and
    [goToSlide(N)] return it as it was: neither the position nor the
    direction changes. *)
Theorem out_of_range_rejected :
  forall st : NavState,
    (currentSlide (goToSlide (-1) st) = currentSlide st /\
     direction (goToSlide (-1) st) = direction st) /\
    (currentSlide (goToSlide SLIDES_length st) = currentSlide st /\
     direction (goToSlide SLIDES_length st) = direction st).
Proof.
  intros st.
  rewrite (goToSlide_out_of_range (-1) st) by lia.
  rewrite (goToSlide_out_of_range SLIDES_length st) by lia.
  repeat split.
Qed.

(** ** Direction *)

(** C5: whatever the state before the call, after [goToSlide(target)] with
    [0 <= target < N] the direction is +1 when the target is greater than the
    position before the call and -1 when it is smaller. *)
Theorem direction_follows_travel :
  forall (st : NavState) (target : Z),
    0 <= target < SLIDES_length ->
    (target > currentSlide st -> direction (goToSlide target st) = 1) /\
    (target < currentSlide st -> direction (goToSlide target st) = -1).
Proof.
  intros st target Hrange.
  rewrite goToSlide_in_range by exact Hrange. cbn [direction].
  destruct (Z.gtb_spec target (currentSlide st)); split; intros; (reflexivity || lia).
Qed.

Lemma direction_follows_travel_witness :
  direction (goToSlide 5 {| currentSlide := 2; direction := 0 |}) = 1 /\
  direction (goToSlide 1 {| currentSlide := 2; direction := 0 |}) = -1.
Proof.
  split.
  - apply (direction_follows_travel {| currentSlide := 2; direction := 0 |} 5).
    + rewrite SLIDES_length_eq. lia.
    + cbn [currentSlide]. lia.
  - apply (direction_follows_travel {| currentSlide := 2; direction := 0 |} 1).
    + rewrite SLIDES_length_eq. lia.
    + cbn [currentSlide]. lia.
Defined.

(** C8: for every position [p] with [0 <= p < N] and every prior direction,
    [goToSlide(p)] in a state whose position is [p] keeps the position at [p]
    and sets the direction to -1. *)
Theorem same_position_sets_backward :
  forall p d : Z,
    0 <= p < SLIDES_length ->
    goToSlide p {| currentSlide := p; direction := d |}
      = {| currentSlide := p; direction := -1 |}.
Proof.
  intros p d Hrange.
  rewrite goToSlide_in_range by exact Hrange. cbn [currentSlide].
  rewrite Z.gtb_ltb, Z.ltb_irrefl. reflexivity.
Qed.

Lemma same_position_sets_backward_witness :
  goToSlide 4 {| currentSlide := 4; direction := 1 |}
    = {| currentSlide := 4; direction := -1 |}.
Proof.
  apply (same_position_sets_backward 4 1).
  rewrite SLIDES_length_eq. lia.
Defined.

(** ** [nextSlide] and [prevSlide] against [goToSlide] *)

(** C6: in every state whose position is within the registry, [nextSlide()]
    returns exactly the state [goToSlide(position + 1)] returns, and
    [prevSlide()] exactly the state [goToSlide(position - 1)] returns,
    position and direction alike. *)
Theorem next_prev_as_goTo :
  forall st : NavState,
    0 <= currentSlide st < SLIDES_length ->
    nextSlide st = goToSlide (currentSlide st + 1) st /\
    prevSlide st = goToSlide (currentSlide st - 1) st.
Proof.
  intros st Hst. split.
  - destruct (Z_lt_le_dec (currentSlide st) (SLIDES_length - 1)) as [Hin | Hlast].
    + rewrite nextSlide_inner by exact Hin.
      rewrite goToSlide_in_range by lia.
      destruct (Z.gtb_spec (currentSlide st + 1) (currentSlide st)); [reflexivity | lia].
    + rewrite nextSlide_blocked by exact Hlast.
      rewrite goToSlide_out_of_range by lia. reflexivity.
  - destruct (Z_lt_le_dec 0 (currentSlide st)) as [Hin | Hfirst].
    + rewrite prevSlide_inner by exact Hin.
      rewrite goToSlide_in_range by lia.
      destruct (Z.gtb_spec (currentSlide st - 1) (currentSlide st)); [lia | reflexivity].
    + rewrite prevSlide_blocked by exact Hfirst.
      rewrite goToSlide_out_of_range by lia. reflexivity.
Qed.

Lemma next_prev_as_goTo_witness :
  nextSlide initial = goToSlide (currentSlide initial + 1) initial /\
  prevSlide initial = goToSlide (currentSlide initial - 1) initial.
Proof.
  apply (next_prev_as_goTo initial).
  unfold initial. cbn [currentSlide]. rewrite SLIDES_length_eq. lia.
Defined.

(** The bounds hypothesis of [next_prev_as_goTo] is what the state cell
    guarantees; on a position the component never holds the two differ. *)
Remark next_differs_from_goTo_below_registry :
  nextSlide {| currentSlide := -5; direction := 0 |}
    <> goToSlide (-5 + 1) {| currentSlide := -5; direction := 0 |}.
Proof. vm_compute. discriminate. Qed.

(** ** The handlers of one render, by cases on their guards *)



Lemma nextSlide_from_inner (rendered pending : NavState) :
  currentSlide rendered < SLIDES_length - 1 ->
  nextSlide_from rendered pending
    = {| currentSlide := currentSlide pending + 1; direction := 1 |}.
Proof.
  intros H. unfold nextSlide_from.
  destruct (Z.ltb_spec (currentSlide rendered) (SLIDES_length - 1));
    [reflexivity | lia].
Qed.

Lemma nextSlide_from_blocked (rendered pending : NavState) :
  SLIDES_length - 1 <= currentSlide rendered ->
  nextSlide_from rendered pending = pending.
Proof.
  intros H. unfold nextSlide_from.
  destruct (Z.ltb_spec (currentSlide rendered) (SLIDES_length - 1));
    [lia | reflexivity].
Qed.

Lemma prevSlide_from_inner (rendered pending : NavState) :
  0 < currentSlide rendered ->
  prevSlide_from rendered pending
    = {| currentSlide := currentSlide pending - 1; direction := -1 |}.
Proof.
  intros H. unfold prevSlide_from.
  destruct (Z.gtb_spec (currentSlide rendered) 0); [reflexivity | lia].
Qed.

Lemma prevSlide_from_blocked (rendered pending : NavState) :
  currentSlide rendered <= 0 ->
  prevSlide_from rendered pending = pending.
Proof.
  intros H. unfold prevSlide_from.
  destruct (Z.gtb_spec (currentSlide rendered) 0); [lia | reflexivity].
Qed.

(** ** Round trips *)

(** C10: the code does not make the round trip on the whole range when both
    calls come from one render.  On the first slide [nextSlide()] moves to
    position 1 and [prevSlide()], which still tests the rendered position 0,
    does nothing: the state is position 1 with direction +1, not position 0
    with direction -1.  On the last slide [prevSlide()] moves to [N - 2] and
    [nextSlide()], which still tests the rendered position [N - 1], does
    nothing: the position is [N - 2], not [N - 1]. *)
Theorem round_trip_from_one_render_fails_at_the_ends :
  forall d : Z,
    batch [CallNext; CallPrev] {| currentSlide := 0; direction := d |}
      = {| currentSlide := 1; direction := 1 |} /\
    batch [CallPrev; CallNext]
        {| currentSlide := SLIDES_length - 1; direction := d |}
      = {| currentSlide := SLIDES_length - 2; direction := -1 |}.
Proof.
  intros d. unfold batch. cbn [fold_left call_from]. split.
  - rewrite nextSlide_from_inner
      by (cbn [currentSlide]; pose proof SLIDES_length_eq; lia).
    rewrite prevSlide_from_blocked by (cbn [currentSlide]; lia).
    reflexivity.
  - rewrite prevSlide_from_inner
      by (cbn [currentSlide]; pose proof SLIDES_length_eq; lia).
    rewrite nextSlide_from_blocked by (cbn [currentSlide]; lia).
    cbn [currentSlide]. f_equal; lia.
Qed.

(** ** Payload lookup *)

Lemma switch_return_None (cases : list (string * Component)) (x : string) :
  switch_return cases x = None <-> ~ In x (map fst cases).
Proof.
  induction cases as [| [label c'] rest IH]; cbn.
  - tauto.
  - destruct (String.eqb_spec x label) as [-> | Hneq].
    + split; [discriminate | intros H; exfalso; apply H; now left].
    + rewrite IH. split.
      * intros Hrest [Heq | Hin]; [congruence | exact (Hrest Hin)].
      * intros H Hin. apply H. now right.
Qed.

(** The fallback branch is taken exactly by the strings that are no [case]
    label. *)
Lemma SlideContent_null_iff (slideId : SlideId) :
  SlideContent slideId = None <-> ~ In slideId (map fst SlideContent_cases).
Proof. apply switch_return_None. Qed.

(** Every registry identifier is a [case] label. *)
Lemma SLIDES_are_case_labels :
  forall slideId, In slideId SLIDES -> In slideId (map fst SlideContent_cases).
Proof.
  intros slideId Hin. unfold SLIDES in Hin. cbn in Hin |- *.
  repeat (destruct Hin as [<- | Hin]; [tauto |]).
  contradiction.
Qed.

Lemma SlideContent_registry_not_null (slideId : SlideId) :
  In slideId SLIDES -> SlideContent slideId <> None.
Proof.
  intros Hin Hnull. apply SlideContent_null_iff in Hnull.
  exact (Hnull (SLIDES_are_case_labels slideId Hin)).
Qed.

(** C9: every identifier of the registry [SLIDES] is resolved by
    [SlideContent] to a component; the [default] branch, which returns
    [null], is not taken for an identifier drawn from the registry. *)
Theorem registry_payload_lookup_exhaustive :
  forall slideId : SlideId,
    In slideId SLIDES ->
    (exists c : Component, SlideContent slideId = Some c) /\
    SlideContent slideId <> None.
Proof.
  intros slideId Hin.
  pose proof (SlideContent_registry_not_null slideId Hin) as Hnot.
  split; [| exact Hnot].
  destruct (SlideContent slideId) as [c |]; [now exists c | contradiction].
Qed.

Lemma registry_payload_lookup_exhaustive_witness :
  (exists c : Component, SlideContent "mockups" = Some c) /\
  SlideContent "mockups" <> None.
Proof.
  apply (registry_payload_lookup_exhaustive "mockups").
  unfold SLIDES. cbn. tauto.
Defined.

(** The fallback exists for other strings: the identifier type is erased at
    run time. *)
Remark SlideContent_unknown_identifier : SlideContent "synthesis" = None.
Proof. reflexivity. Qed.

(** What is mounted for a position within the registry is never [null]. *)
Lemma content_mounted (st : NavState) :
  in_bounds st -> content (render st) <> None.
Proof.
  intros Hst. cbn [render content].
  destruct (SLIDES_at_in_range (currentSlide st) Hst) as [slideId [-> Hin]].
  apply SlideContent_registry_not_null.
  exact Hin.
Qed.

(** ** Indicators *)

(** Every position within the registry is the position of a state the
    component reaches: one [goToSlide] from the initial state. *)
Lemma every_position_reachable (p : Z) :
  0 <= p < SLIDES_length -> currentSlide (run [CallGoTo p] initial) = p.
Proof.
  intros Hp. unfold run. cbn [fold_left call].
  now rewrite goToSlide_in_range by exact Hp.
Qed.

Lemma in_bounds_positions (st : NavState) :
  in_bounds st -> In (currentSlide st) (map Z.of_nat (seq 0 18)).
Proof.
  unfold in_bounds. rewrite SLIDES_length_eq. intros Hst.
  apply in_map_iff. exists (Z.to_nat (currentSlide st)).
  split; [lia | apply in_seq; lia].
Qed.

(** C7, as stated, fails: on the first slide the fill ratio the component
    renders is a double, and no double is the fraction 1/18. *)
Lemma rendered_ratio_is_not_the_fraction :
  ~ (exists v : Q,
       binary64_value (progress_ratio (render initial)) = Some v /\
       (v == fill_fraction (currentSlide initial))%Q).
Proof.
  intros [v [Hv Heq]].
  vm_compute in Hv. injection Hv as <-.
  apply Qeq_bool_iff in Heq. vm_compute in Heq. discriminate Heq.
Qed.

(** C7, amended: for every state whose position [p] is within the registry,
    the text of the slide counter is the readout ["{p+1} / {N}"] in decimal,
    and the fill ratio of the progress bar is a finite double within one
    part in [2^53] of the fraction [(p + 1) / N]; it is that fraction
    exactly on the ninth and on the last slide only. *)
Theorem indicators_at_registry_positions :
  forall st : NavState,
    0 <= currentSlide st < SLIDES_length ->
    textContent (counter (render st))
      = spec_counter_readout (currentSlide st) SLIDES_length /\
    within_relative (1 # 2 ^ 53) (progress_ratio (render st))
      (fill_fraction (currentSlide st)) = true /\
    (within_relative 0 (progress_ratio (render st))
       (fill_fraction (currentSlide st)) = true
     <-> currentSlide st = 8 \/ currentSlide st = 17).
Proof.
  intros st Hst. apply in_bounds_positions in Hst.
  destruct st as [p d]. cbn [currentSlide] in Hst |- *.
  cbn [render counter progress_ratio].
  cbn [map seq] in Hst.
  repeat (destruct Hst as [<- | Hst];
          [ vm_compute;
            split; [reflexivity |];
            split; [reflexivity |];
            split;
            [ intros H; first [discriminate H | left; reflexivity | right; reflexivity]
            | intros [H | H]; first [reflexivity | discriminate H] ]
          | ]).
  contradiction.
Qed.

Lemma indicators_at_registry_positions_witness :
  textContent (counter (render {| currentSlide := 3; direction := -1 |}))
    = "4 / 18" /\
  within_relative (1 # 2 ^ 53)
    (progress_ratio (render {| currentSlide := 3; direction := -1 |}))
    (4 # 18) = true.
Proof.
  destruct (indicators_at_registry_positions {| currentSlide := 3; direction := -1 |})
    as [Htext [Hratio _]].
  - cbn [currentSlide]. rewrite SLIDES_length_eq. lia.
  - split; [exact Htext | exact Hratio].
Defined.

(** The readouts on the first, an inner and the last slide. *)
Example counter_on_first_slide :
  textContent (counter (render initial)) = "1 / 18".
Proof. reflexivity. Qed.

Example counter_on_fourth_slide :
  textContent (counter (render (run [CallGoTo 3] initial))) = "4 / 18".
Proof. reflexivity. Qed.

Example counter_on_last_slide :
  textContent (counter (render (run [CallGoTo 17] initial))) = "18 / 18".
Proof. reflexivity. Qed.

(** The numerals of the specification's readout. *)
Example decimal_numeral_samples :
  map decimal_numeral [0; 7; 10; 18; 109; -1; -250]
    = ["0"; "7"; "10"; "18"; "109"; "-1"; "-250"].
Proof. reflexivity. Qed.

(** ** The end-to-end scenario *)

Lemma dispatch_ArrowRight (st : NavState) :
  dispatch (KeyDown "ArrowRight") st = nextSlide st.
Proof. reflexivity. Qed.

Lemma dispatch_ArrowLeft (st : NavState) :
  dispatch (KeyDown "ArrowLeft") st = prevSlide st.
Proof. reflexivity. Qed.

Lemma dispatch_Space (st : NavState) :
  dispatch (KeyDown " ") st = nextSlide st.
Proof. reflexivity. Qed.

(** A click on a button does what its handler does: where the button is
    disabled the handler would have done nothing. *)
Lemma dispatch_ClickNext (st : NavState) : dispatch ClickNext st = nextSlide st.
Proof.
  cbn [dispatch render nextButton]. unfold click. cbn [disabled onClick].
  destruct (Z.eqb_spec (currentSlide st) (SLIDES_length - 1)) as [Heq | _];
    [| reflexivity].
  symmetry. apply nextSlide_blocked. lia.
Qed.

Lemma dispatch_ClickPrev (st : NavState) : dispatch ClickPrev st = prevSlide st.
Proof.
  cbn [dispatch render prevButton]. unfold click. cbn [disabled onClick].
  destruct (Z.eqb_spec (currentSlide st) 0) as [Heq | _]; [| reflexivity].
  symmetry. apply prevSlide_blocked. lia.
Qed.

(** Sixteen right arrows reach position 16, where the next button is still
    enabled: the registry has eighteen slides, the last at position 17. *)
Lemma sixteen_presses :
  let s1 := dispatch_all (repeat (KeyDown "ArrowRight") 16) initial in
  currentSlide s1 = 16 /\
  disabled (nextButton (render s1)) = false /\
  currentSlide (dispatch (KeyDown "ArrowRight") s1) = 17.
Proof. vm_compute. repeat split. Qed.

(** C2, as stated, fails: after sixteen right arrows the next button is not
    disabled, and one more right arrow moves on to position 17. *)
Lemma scenario_with_17_slides_fails : ~ scenario 16 16.
Proof.
  unfold scenario. intros [[_ Hdisabled] _].
  vm_compute in Hdisabled. discriminate Hdisabled.
Qed.

(** C2, amended: the registry has 18 slides.  From position 0, seventeen
    right arrows reach position 17 with the next button disabled; one more
    right arrow stays at 17; a click on dot 3 reaches position 3 with
    direction -1; three left arrows reach position 0 with the previous
    button disabled. *)
Theorem scenario_with_18_slides :
  SLIDES_length = 18 /\ scenario 17 17.
Proof.
  split; [reflexivity |].
  unfold scenario. vm_compute. repeat split.
Qed.

(** ** Rounding of the progress bar *)

(** On every position of the registry the double the component computes for
    the fill ratio is the fraction up to one part in [2^53], and the
    width a hundred times the fraction up to one part in [2^52]. *)
Lemma progress_bar_rounding (st : NavState) :
  in_bounds st ->
  within_relative (1 # 2 ^ 53) (progress_ratio (render st))
    (fill_fraction (currentSlide st)) = true /\
  within_relative (1 # 2 ^ 52) (progress_width (render st))
    (inject_Z 100 * fill_fraction (currentSlide st)) = true.
Proof.
  intros Hst. apply in_bounds_positions in Hst.
  destruct st as [p d]. cbn [currentSlide] in Hst |- *.
  cbn [render progress_ratio progress_width].
  cbn [map seq] in Hst.
  repeat (destruct Hst as [<- | Hst]; [vm_compute; split; reflexivity |]).
  contradiction.
Qed.

(** Half-way and at the end the double is exact. *)
Example progress_ratio_binary64_half :
  within_relative 0
    (progress_ratio (render {| currentSlide := 8; direction := 1 |})) (1 # 2)
    = true.
Proof. vm_compute. reflexivity. Qed.

Example progress_width_binary64_full :
  progress_width (render {| currentSlide := 17; direction := 1 |})
    = binary64_of_Z 100.
Proof. vm_compute. reflexivity. Qed.

(** * Further properties of the controller *)

(** ** What a call can do to a state *)

(** A call leaves the state as it is, or keeps the position and sets the
    direction to -1, or moves up with direction +1, or moves down with
    direction -1. *)
Lemma call_outcomes (c : Call) (st : NavState) :
  call c st = st \/
  (currentSlide (call c st) = currentSlide st /\ direction (call c st) = -1) \/
  (currentSlide st < currentSlide (call c st) /\ direction (call c st) = 1) \/
  (currentSlide (call c st) < currentSlide st /\ direction (call c st) = -1).
Proof.
  destruct c as [| | index]; cbn [call].
  - destruct (Z_lt_le_dec (currentSlide st) (SLIDES_length - 1)).
    + rewrite nextSlide_inner by assumption. cbn [currentSlide direction].
      right; right; left. split; [lia | reflexivity].
    + left. now apply nextSlide_blocked.
  - destruct (Z_lt_le_dec 0 (currentSlide st)).
    + rewrite prevSlide_inner by assumption. cbn [currentSlide direction].
      right; right; right. split; [lia | reflexivity].
    + left. now apply prevSlide_blocked.
  - destruct (Z_lt_le_dec index 0);
      [left; apply goToSlide_out_of_range; lia |].
    destruct (Z_lt_le_dec index SLIDES_length);
      [| left; apply goToSlide_out_of_range; lia].
    rewrite goToSlide_in_range by lia. cbn [currentSlide direction].
    destruct (Z.gtb_spec index (currentSlide st)).
    + right; right; left. split; [lia | reflexivity].
    + destruct (Z.eq_dec index (currentSlide st)).
      * right; left. split; [assumption | reflexivity].
      * right; right; right. split; [lia | reflexivity].
Qed.

(** X1: whenever a handler call changes the position, from any state, the
    direction it leaves is the sign of the change: +1 after a move to a higher
    position, -1 after a move to a lower one. *)
Theorem direction_is_sign_of_move :
  forall (c : Call) (st : NavState),
    currentSlide (call c st) <> currentSlide st ->
    direction (call c st) = Z.sgn (currentSlide (call c st) - currentSlide st).
Proof.
  intros c st Hmoved.
  destruct (call_outcomes c st) as [Hsame | [[Hpos _] | [[Hup ->] | [Hdown ->]]]].
  - rewrite Hsame in Hmoved. contradiction.
  - contradiction.
  - symmetry. apply Z.sgn_pos. lia.
  - symmetry. apply Z.sgn_neg. lia.
Qed.

Lemma direction_is_sign_of_move_witness :
  direction (call (CallGoTo 3) {| currentSlide := 16; direction := 1 |})
    = Z.sgn (currentSlide (call (CallGoTo 3) {| currentSlide := 16; direction := 1 |}) - 16).
Proof.
  apply (direction_is_sign_of_move (CallGoTo 3) {| currentSlide := 16; direction := 1 |}).
  vm_compute. discriminate.
Defined.

(** X2: between the renders before and after a handler call, a move to a
    higher position makes the old slide leave to the left (-100%) and the new
    one come in from the right (100%); a move to a lower position the other
    way round; and a call that keeps the position mounts no transition, also
    when it changed the direction. *)
Theorem transition_follows_travel :
  forall (c : Call) (st : NavState),
    (currentSlide st < currentSlide (call c st) ->
     transition_between st (call c st)
       = Some ({| target_x := "-100%"; target_opacity := 0 |},
               {| target_x := "100%"; target_opacity := 0 |})) /\
    (currentSlide (call c st) < currentSlide st ->
     transition_between st (call c st)
       = Some ({| target_x := "100%"; target_opacity := 0 |},
               {| target_x := "-100%"; target_opacity := 0 |})) /\
    (currentSlide (call c st) = currentSlide st ->
     transition_between st (call c st) = None).
Proof.
  intros c st. unfold transition_between.
  destruct (Z.eqb_spec (currentSlide (call c st)) (currentSlide st)) as [Heq | Hneq].
  - repeat split; intros; (reflexivity || lia).
  - destruct (call_outcomes c st) as [Hsame | [[Hpos _] | [[Hup ->] | [Hdown ->]]]].
    + rewrite Hsame in Hneq. contradiction.
    + contradiction.
    + repeat split; intros; (reflexivity || lia).
    + repeat split; intros; (reflexivity || lia).
Qed.

Lemma transition_follows_travel_witness :
  transition_between initial (call CallNext initial)
    = Some ({| target_x := "-100%"; target_opacity := 0 |},
            {| target_x := "100%"; target_opacity := 0 |}) /\
  transition_between {| currentSlide := 16; direction := 1 |}
      (call (CallGoTo 3) {| currentSlide := 16; direction := 1 |})
    = Some ({| target_x := "100%"; target_opacity := 0 |},
            {| target_x := "-100%"; target_opacity := 0 |}) /\
  transition_between {| currentSlide := 4; direction := 1 |}
      (call (CallGoTo 4) {| currentSlide := 4; direction := 1 |})
    = None.
Proof.
  split; [| split].
  - apply (transition_follows_travel CallNext initial). vm_compute. reflexivity.
  - apply (transition_follows_travel (CallGoTo 3) {| currentSlide := 16; direction := 1 |}).
    vm_compute. reflexivity.
  - apply (transition_follows_travel (CallGoTo 4) {| currentSlide := 4; direction := 1 |}).
    vm_compute. reflexivity.
Defined.

(** ** Repeated calls *)

Lemma run_cons (c : Call) (cs : list Call) (st : NavState) :
  run (c :: cs) st = run cs (call c st).
Proof. reflexivity. Qed.

Lemma run_app (cs1 cs2 : list Call) (st : NavState) :
  run (cs1 ++ cs2) st = run cs2 (run cs1 st).
Proof. unfold run. apply fold_left_app. Qed.

Lemma repeat_next_position (n : nat) :
  forall st : NavState,
    currentSlide st <= SLIDES_length - 1 ->
    currentSlide (run (repeat CallNext n) st)
      = Z.min (currentSlide st + Z.of_nat n) (SLIDES_length - 1).
Proof.
  induction n as [| n IH]; intros st Hst.
  - cbn [repeat]. unfold run. cbn [fold_left]. lia.
  - cbn [repeat]. rewrite run_cons. cbn [call].
    destruct (Z_lt_le_dec (currentSlide st) (SLIDES_length - 1)) as [Hin | Hlast].
    + rewrite nextSlide_inner by exact Hin.
      rewrite IH by (cbn [currentSlide]; lia). cbn [currentSlide]. lia.
    + rewrite nextSlide_blocked by exact Hlast.
      rewrite IH by exact Hst. lia.
Qed.

Lemma repeat_prev_position (n : nat) :
  forall st : NavState,
    0 <= currentSlide st ->
    currentSlide (run (repeat CallPrev n) st)
      = Z.max (currentSlide st - Z.of_nat n) 0.
Proof.
  induction n as [| n IH]; intros st Hst.
  - cbn [repeat]. unfold run. cbn [fold_left]. lia.
  - cbn [repeat]. rewrite run_cons. cbn [call].
    destruct (Z_lt_le_dec 0 (currentSlide st)) as [Hin | Hfirst].
    + rewrite prevSlide_inner by exact Hin.
      rewrite IH by (cbn [currentSlide]; lia). cbn [currentSlide]. lia.
    + rewrite prevSlide_blocked by exact Hfirst.
      rewrite IH by exact Hst. lia.
Qed.







(** ** Keyboard and pointer input *)

Lemma dispatch_all_app (es1 es2 : list Event) (st : NavState) :
  dispatch_all (es1 ++ es2) st = dispatch_all es2 (dispatch_all es1 st).
Proof. unfold dispatch_all. apply fold_left_app. Qed.

Lemma dispatch_all_ArrowRight (n : nat) :
  forall st, dispatch_all (repeat (KeyDown "ArrowRight") n) st
             = run (repeat CallNext n) st.
Proof.
  induction n as [| n IH]; intros st; [reflexivity |].
  cbn [repeat]. rewrite run_cons. cbn [call]. rewrite <- IH. reflexivity.
Qed.

Lemma dispatch_all_ArrowLeft (n : nat) :
  forall st, dispatch_all (repeat (KeyDown "ArrowLeft") n) st
             = run (repeat CallPrev n) st.
Proof.
  induction n as [| n IH]; intros st; [reflexivity |].
  cbn [repeat]. rewrite run_cons. cbn [call]. rewrite <- IH. reflexivity.
Qed.

(** X5: the arrow keys alone reach every slide: from a state within the
    registry at position [c], pressing right-arrow [p - c] times when [p] is
    ahead, or left-arrow [c - p] times when it is behind, ends at position
    [p], for every [p] with [0 <= p < N]. *)
Theorem arrow_keys_reach_every_slide :
  forall (st : NavState) (p : Z),
    0 <= currentSlide st < SLIDES_length ->
    0 <= p < SLIDES_length ->
    currentSlide
      (dispatch_all
         (repeat (KeyDown "ArrowRight") (Z.to_nat (p - currentSlide st))
          ++ repeat (KeyDown "ArrowLeft") (Z.to_nat (currentSlide st - p)))
         st) = p.
Proof.
  intros st p Hst Hp.
  rewrite dispatch_all_app, dispatch_all_ArrowRight, dispatch_all_ArrowLeft.
  destruct (Z_le_gt_dec (currentSlide st) p) as [Hahead | Hbehind].
  - replace (Z.to_nat (currentSlide st - p)) with 0%nat by lia.
    cbn [repeat]. unfold run at 1. cbn [fold_left].
    rewrite repeat_next_position by lia. lia.
  - replace (Z.to_nat (p - currentSlide st)) with 0%nat by lia.
    cbn [repeat]. unfold run at 2. cbn [fold_left].
    rewrite repeat_prev_position by lia. lia.
Qed.

Lemma arrow_keys_reach_every_slide_witness :
  currentSlide
    (dispatch_all
       (repeat (KeyDown "ArrowRight") (Z.to_nat (11 - 4))
        ++ repeat (KeyDown "ArrowLeft") (Z.to_nat (4 - 11)))
       {| currentSlide := 4; direction := -1 |}) = 11.
Proof.
  apply (arrow_keys_reach_every_slide {| currentSlide := 4; direction := -1 |} 11).
  - cbn [currentSlide]. rewrite SLIDES_length_eq. lia.
  - rewrite SLIDES_length_eq. lia.
Defined.

(** X6: [handleKeyDown] suppresses the default action exactly for the keys
    ['ArrowRight'], [' '] and ['ArrowLeft'], whatever the state, also at a
    boundary where the handler moves nothing; for every other key the state
    stays as it was. *)
Theorem handleKeyDown_prevents_default :
  forall (key : string) (st : NavState),
    (defaultPrevented (handleKeyDown key st) = true
       <-> key = "ArrowRight" \/ key = " " \/ key = "ArrowLeft") /\
    (defaultPrevented (handleKeyDown key st) = false ->
       after_key (handleKeyDown key st) = st).
Proof.
  intros key st. unfold handleKeyDown.
  destruct (String.eqb_spec key "ArrowRight") as [-> | Hr]; cbn [orb].
  - cbn. split; [tauto | discriminate].
  - destruct (String.eqb_spec key " ") as [-> | Hs].
    + cbn. split; [tauto | discriminate].
    + destruct (String.eqb_spec key "ArrowLeft") as [-> | Hl]; cbn.
      * split; [tauto | discriminate].
      * split; [| reflexivity].
        split; [discriminate | intros [H | [H | H]]; contradiction].
Qed.

Lemma handleKeyDown_prevents_default_witness :
  after_key (handleKeyDown "Enter" {| currentSlide := 3; direction := 1 |})
    = {| currentSlide := 3; direction := 1 |} /\
  defaultPrevented
    (handleKeyDown " " {| currentSlide := 17; direction := 1 |}) = true.
Proof.
  split.
  - apply (handleKeyDown_prevents_default "Enter" {| currentSlide := 3; direction := 1 |}).
    reflexivity.
  - apply (handleKeyDown_prevents_default " " {| currentSlide := 17; direction := 1 |}).
    right; left. reflexivity.
Defined.

(** ** The dots *)

Lemma dots_nth_error (st : NavState) (i : nat) :
  nth_error (dots (render st)) i
    = if (i <? List.length SLIDES)%nat
      then Some {| highlighted := (Z.of_nat i =? currentSlide st);
                   dot_onClick := goToSlide (Z.of_nat i) |}
      else None.
Proof.
  cbn [render dots]. unfold mapi_index.
  rewrite nth_error_map, nth_error_seq.
  destruct (i <? List.length SLIDES)%nat; reflexivity.
Qed.

Lemma dots_length (st : NavState) :
  Z.of_nat (List.length (dots (render st))) = SLIDES_length.
Proof.
  cbn [render dots]. unfold mapi_index, SLIDES_length.
  now rewrite length_map, length_seq.
Qed.

Lemma highlighted_in_bounds (st : NavState) :
  in_bounds st ->
  highlighted_indices (dots (render st)) = [Z.to_nat (currentSlide st)].
Proof.
  intros Hst. apply in_bounds_positions in Hst.
  destruct st as [p d]. cbn [currentSlide] in Hst. cbn [map seq] in Hst.
  repeat (destruct Hst as [<- | Hst]; [vm_compute; reflexivity |]).
  contradiction.
Qed.

Lemma highlighted_indices_map (g : nat -> Dot) (l : list nat) :
  map fst (filter (fun id => highlighted (snd id)) (combine l (map g l)))
    = filter (fun i => highlighted (g i)) l.
Proof.
  induction l as [| i l IH]; [reflexivity |].
  cbn [map combine filter snd].
  destruct (highlighted (g i)); cbn [map fst]; now rewrite IH.
Qed.

Lemma filter_position (p : Z) (n : nat) :
  forall a : nat,
    filter (fun i => Z.of_nat i =? p) (seq a n)
      = if (Z.of_nat a <=? p) && (p <? Z.of_nat a + Z.of_nat n)
        then [Z.to_nat p] else [].
Proof.
  induction n as [| n IH]; intros a.
  - cbn [seq filter].
    destruct (Z.leb_spec (Z.of_nat a) p), (Z.ltb_spec p (Z.of_nat a + Z.of_nat 0));
      cbn [andb]; (reflexivity || lia).
  - cbn [seq filter]. rewrite IH.
    destruct (Z.eqb_spec (Z.of_nat a) p) as [Heq | Hneq];
      destruct (Z.leb_spec (Z.of_nat (S a)) p),
               (Z.ltb_spec p (Z.of_nat (S a) + Z.of_nat n)),
               (Z.leb_spec (Z.of_nat a) p),
               (Z.ltb_spec p (Z.of_nat a + Z.of_nat (S n)));
      cbn [andb]; try reflexivity; try lia.
    subst p. now rewrite Nat2Z.id.
Qed.

(** X7: in every state the indicator shows one dot per registry entry; when
    the position is within the registry exactly one dot is highlighted, the
    one at the position, and when it is not, none is. *)
Theorem dots_highlight_the_position :
  forall st : NavState,
    Z.of_nat (List.length (dots (render st))) = SLIDES_length /\
    highlighted_indices (dots (render st))
      = if (0 <=? currentSlide st) && (currentSlide st <? SLIDES_length)
        then [Z.to_nat (currentSlide st)] else [].
Proof.
  intros st. split; [apply dots_length |].
  cbn [render dots]. unfold highlighted_indices, mapi_index.
  rewrite length_map, length_seq.
  rewrite (highlighted_indices_map
             (fun i => {| highlighted := (Z.of_nat i =? currentSlide st);
                          dot_onClick := goToSlide (Z.of_nat i) |})).
  cbn [highlighted]. rewrite filter_position. reflexivity.
Qed.

(** X8: a click on the dot with index [i], for every rendered dot
    ([i < N]) and from every state, sets the position to [i]; the tree
    rendered next highlights that dot and no other. *)
Theorem dot_click_lands :
  forall (st : NavState) (i : nat),
    (i < List.length SLIDES)%nat ->
    currentSlide (dispatch (ClickDot i) st) = Z.of_nat i /\
    highlighted_indices (dots (render (dispatch (ClickDot i) st))) = [i].
Proof.
  intros st i Hi. cbn [dispatch]. rewrite dots_nth_error.
  destruct (Nat.ltb_spec i (List.length SLIDES)) as [_ | Hge]; [| lia].
  cbn [dot_onClick].
  assert (Hrange : 0 <= Z.of_nat i < SLIDES_length) by (unfold SLIDES_length; lia).
  rewrite goToSlide_in_range by exact Hrange.
  split; [reflexivity |].
  rewrite highlighted_in_bounds by exact Hrange.
  cbn [currentSlide]. now rewrite Nat2Z.id.
Qed.

Lemma dot_click_lands_witness :
  currentSlide (dispatch (ClickDot 3) {| currentSlide := 16; direction := 1 |})
    = Z.of_nat 3 /\
  highlighted_indices
    (dots (render (dispatch (ClickDot 3) {| currentSlide := 16; direction := 1 |})))
    = [3%nat].
Proof.
  apply (dot_click_lands {| currentSlide := 16; direction := 1 |} 3).
  unfold SLIDES. cbn [List.length]. lia.
Defined.

(** ** Events keep the bounds *)

Lemma dispatch_in_bounds (e : Event) (st : NavState) :
  in_bounds st -> in_bounds (dispatch e st).
Proof.
  intros Hst. destruct e as [key | | | i].
  - cbn [dispatch]. unfold handleKeyDown.
    destruct ((key =? "ArrowRight")%string || (key =? " ")%string);
      [exact (nextSlide_in_bounds st Hst) |].
    destruct (key =? "ArrowLeft")%string;
      [exact (prevSlide_in_bounds st Hst) | exact Hst].
  - rewrite dispatch_ClickPrev. exact (prevSlide_in_bounds st Hst).
  - rewrite dispatch_ClickNext. exact (nextSlide_in_bounds st Hst).
  - cbn [dispatch]. rewrite dots_nth_error.
    destruct (i <? List.length SLIDES)%nat; [| exact Hst].
    cbn [dot_onClick]. exact (goToSlide_in_bounds _ st Hst).
Qed.

Lemma dispatch_all_in_bounds (es : list Event) :
  forall st, in_bounds st -> in_bounds (dispatch_all es st).
Proof.
  unfold dispatch_all. induction es as [| e es IH]; intros st Hst; cbn [fold_left].
  - exact Hst.
  - apply IH, dispatch_in_bounds, Hst.
Qed.

(** An event with nothing pending is the event on the latest render. *)
Lemma dispatch_from_latest (e : Event) (st : NavState) :
  dispatch_from st e st = dispatch e st.
Proof.
  destruct e as [key | | | i]; cbn [dispatch_from dispatch].
  - unfold handleKeyDown_from, handleKeyDown.
    destruct ((key =? "ArrowRight")%string || (key =? " ")%string); [reflexivity |].
    destruct (key =? "ArrowLeft")%string; reflexivity.
  - reflexivity.
  - reflexivity.
  - rewrite dots_nth_error.
    assert (Hlen : List.length (dots (render st)) = List.length SLIDES).
    { cbn [render dots]. unfold mapi_index. now rewrite length_map, length_seq. }
    rewrite Hlen.
    destruct (i <? List.length SLIDES)%nat; reflexivity.
Qed.

Lemma event_schedule_one_per_render (ebs : list (list Event)) :
  Forall (fun es => (List.length es <= 1)%nat) ebs ->
  forall st, event_schedule ebs st = dispatch_all (List.concat ebs) st.
Proof.
  induction 1 as [| es ebs Hes _ IH]; intros st; [reflexivity |].
  change (event_schedule (es :: ebs) st)
    with (event_schedule ebs (event_batch es st)).
  rewrite IH. cbn [List.concat]. rewrite dispatch_all_app.
  destruct es as [| e [| e' es]]; cbn [List.length] in Hes.
  - reflexivity.
  - unfold event_batch, dispatch_all at 2. cbn [fold_left].
    now rewrite dispatch_from_latest.
  - lia.
Qed.

(** X9: when no render has more than one event to handle, no input moves
    the position outside the registry: after any such sequence of key
    presses (any key), clicks on the two buttons and clicks on dots, from the
    initial state, [0 <= currentSlide < N], and the slide container mounts a
    component, never [null]. *)
Theorem events_keep_bounds_one_per_render :
  forall ebs : list (list Event),
    Forall (fun es => (List.length es <= 1)%nat) ebs ->
    0 <= currentSlide (event_schedule ebs initial) < SLIDES_length /\
    content (render (event_schedule ebs initial)) <> None.
Proof.
  intros ebs Hone. rewrite (event_schedule_one_per_render ebs Hone).
  pose proof (dispatch_all_in_bounds (List.concat ebs) initial initial_in_bounds) as Hb.
  split; [exact Hb | exact (content_mounted _ Hb)].
Qed.

Lemma events_keep_bounds_one_per_render_witness :
  0 <= currentSlide
         (event_schedule
            [[KeyDown "ArrowRight"]; []; [ClickDot 16]; [KeyDown " "];
             [ClickNext]; [KeyDown "Tab"]] initial) < SLIDES_length /\
  content
    (render
       (event_schedule
          [[KeyDown "ArrowRight"]; []; [ClickDot 16]; [KeyDown " "];
           [ClickNext]; [KeyDown "Tab"]] initial)) <> None.
Proof.
  apply (events_keep_bounds_one_per_render
           [[KeyDown "ArrowRight"]; []; [ClickDot 16]; [KeyDown " "];
            [ClickNext]; [KeyDown "Tab"]]).
  repeat constructor.
Defined.

(** Two right arrows handled by the listener of one render, on the last but
    one slide, both pass the guard. *)
Remark two_key_presses_before_a_render :
  event_batch [KeyDown "ArrowRight"; KeyDown "ArrowRight"]
    {| currentSlide := 16; direction := 1 |}
  = {| currentSlide := 18; direction := 1 |}.
Proof. reflexivity. Qed.

(** ** The two buttons *)

(** X10: in every state within the registry a button is disabled exactly
    when its handler would leave the state as it is: the previous button on
    the first slide only, the next button on the last slide only; the two
    are never disabled together. *)
Theorem buttons_disabled_iff_blocked :
  forall st : NavState,
    0 <= currentSlide st < SLIDES_length ->
    (disabled (prevButton (render st)) = true <-> prevSlide st = st) /\
    (disabled (nextButton (render st)) = true <-> nextSlide st = st) /\
    ~ (disabled (prevButton (render st)) = true /\
       disabled (nextButton (render st)) = true).
Proof.
  intros st Hst. cbn [render prevButton nextButton disabled].
  rewrite !Z.eqb_eq. split; [| split].
  - split; intros H.
    + apply prevSlide_blocked. lia.
    + destruct (Z_lt_le_dec 0 (currentSlide st)) as [Hin | Hfirst]; [| lia].
      rewrite prevSlide_inner in H by exact Hin.
      apply (f_equal currentSlide) in H. cbn [currentSlide] in H. lia.
  - split; intros H.
    + apply nextSlide_blocked. lia.
    + destruct (Z_lt_le_dec (currentSlide st) (SLIDES_length - 1)) as [Hin | Hlast]; [| lia].
      rewrite nextSlide_inner in H by exact Hin.
      apply (f_equal currentSlide) in H. cbn [currentSlide] in H. lia.
  - rewrite SLIDES_length_eq. lia.
Qed.

Lemma buttons_disabled_iff_blocked_witness :
  (disabled (prevButton (render initial)) = true <-> prevSlide initial = initial) /\
  (disabled (nextButton (render initial)) = true <-> nextSlide initial = initial) /\
  ~ (disabled (prevButton (render initial)) = true /\
     disabled (nextButton (render initial)) = true).
Proof.
  apply (buttons_disabled_iff_blocked initial).
  unfold initial. cbn [currentSlide]. rewrite SLIDES_length_eq. lia.
Defined.

(** ** The reachable states *)

Lemma reachable_shape_in_bounds (st : NavState) :
  reachable_shape st -> in_bounds st.
Proof.
  unfold in_bounds. intros [-> | [[H _] | [H _]]].
  - exact initial_in_bounds.
  - exact H.
  - lia.
Qed.

Lemma reachable_shape_step (c : Call) (st : NavState) :
  reachable_shape st -> reachable_shape (call c st).
Proof.
  intros Hst.
  pose proof (reachable_shape_in_bounds st Hst) as Hb.
  pose proof (call_in_bounds c st Hb) as Hb'. unfold in_bounds in Hb, Hb'.
  destruct (call_outcomes c st) as [-> | [[_ Hd] | [[Hup Hd] | [_ Hd]]]].
  - exact Hst.
  - right; left. split; assumption.
  - right; right. split; [lia | assumption].
  - right; left. split; assumption.
Qed.

Lemma run_has_shape (cs : list Call) :
  forall st, reachable_shape st -> reachable_shape (run cs st).
Proof.
  unfold run. induction cs as [| c cs IH]; intros st Hst; cbn [fold_left].
  - exact Hst.
  - apply IH, reachable_shape_step, Hst.
Qed.

(** Every state of the shape is reached by at most two [goToSlide] calls. *)
Lemma shape_is_run (st : NavState) :
  reachable_shape st ->
  exists p : Z,
    0 <= p < SLIDES_length /\
    (st = initial \/ run [CallGoTo p] initial = st
     \/ run [CallGoTo p; CallGoTo p] initial = st).
Proof.
  destruct st as [p d]. unfold reachable_shape. cbn [currentSlide direction].
  intros [-> | [[Hp ->] | [Hp ->]]].
  - exists 0. split; [pose proof SLIDES_length_pos; lia | now left].
  - exists p. split; [exact Hp |]. right; right.
    unfold run. cbn [fold_left call].
    rewrite (goToSlide_in_range p initial) by exact Hp.
    rewrite goToSlide_in_range by exact Hp. cbn [currentSlide].
    now rewrite Z.gtb_ltb, Z.ltb_irrefl.
  - exists p. split; [lia |]. right; left.
    unfold run. cbn [fold_left call].
    rewrite goToSlide_in_range by lia. unfold initial. cbn [currentSlide].
    destruct (Z.gtb_spec p 0); [reflexivity | lia].
Qed.

Lemma render_after_each_one_call (cs : list Call) :
  one_call_per_render (render_after_each cs).
Proof.
  unfold one_call_per_render, render_after_each.
  apply Forall_map, Forall_forall. intros c _. cbn. lia.
Qed.

(** X11: when no render has more than one call to handle, the states the
    component can hold are exactly these: the initial state (position 0,
    direction 0); any position of the registry with direction -1; any
    position from 1 on with direction +1.  So the direction is 0 only before
    the first effective call, and the first slide is never shown with
    direction +1. *)
Theorem reachable_states_one_call_per_render :
  forall st : NavState,
    (exists bs : list (list Call),
        one_call_per_render bs /\ schedule bs initial = st) <->
    (st = initial \/
     (0 <= currentSlide st < SLIDES_length /\ direction st = -1) \/
     (1 <= currentSlide st < SLIDES_length /\ direction st = 1)).
Proof.
  intros st. split.
  - intros [bs [Hone <-]]. rewrite (schedule_one_call_per_render bs Hone).
    apply (run_has_shape (List.concat bs) initial). now left.
  - intros Hshape.
    assert (Hrun : exists cs, run cs initial = st).
    { destruct (shape_is_run st Hshape) as [p [_ [-> | [H | H]]]].
      - now exists [].
      - now exists [CallGoTo p].
      - now exists [CallGoTo p; CallGoTo p]. }
    destruct Hrun as [cs Hcs]. exists (render_after_each cs).
    split; [apply render_after_each_one_call |].
    now rewrite schedule_render_after_each.
Qed.

Lemma reachable_states_one_call_per_render_witness :
  (exists bs : list (list Call),
      one_call_per_render bs /\
      schedule bs initial = {| currentSlide := 7; direction := 1 |}) /\
  ~ (exists bs : list (list Call),
        one_call_per_render bs /\
        schedule bs initial = {| currentSlide := 0; direction := 1 |}).
Proof.
  split.
  - apply (proj2 (reachable_states_one_call_per_render
                    {| currentSlide := 7; direction := 1 |})).
    right; right. cbn [currentSlide direction]. rewrite SLIDES_length_eq. lia.
  - intros H.
    apply (proj1 (reachable_states_one_call_per_render
                    {| currentSlide := 0; direction := 1 |})) in H.
    cbn [currentSlide direction] in H.
    destruct H as [H | [[_ H] | [H _]]]; [discriminate H | discriminate H | lia].
Defined.

(** ** Rejected calls *)

Lemma call_rejected (c : Call) (st : NavState) :
  passes_guard c = false -> call c st = st.
Proof.
  destruct c as [| | index]; cbn [passes_guard call]; try discriminate.
  intros Hguard. unfold goToSlide. now rewrite Hguard.
Qed.

(** X12: [goToSlide] calls whose argument fails the bounds check leave no
    trace: removing them from any sequence of calls, run from any state,
    gives the same final state. *)
Theorem rejected_calls_leave_no_trace :
  forall (cs : list Call) (st : NavState),
    run (filter passes_guard cs) st = run cs st.
Proof.
  induction cs as [| c cs IH]; intros st; [reflexivity |].
  cbn [filter]. destruct (passes_guard c) eqn:Hguard.
  - rewrite !run_cons. apply IH.
  - rewrite run_cons, (call_rejected c st Hguard). apply IH.
Qed.

(** ** Registry and payload lookup together *)

Lemma case_labels_NoDup : NoDup (map fst SlideContent_cases).
Proof.
  unfold SlideContent_cases. cbn [map fst].
  repeat (constructor; [ cbn; intuition discriminate | ]).
  constructor.
Qed.

Lemma case_labels_in_SLIDES :
  forall label, In label (map fst SlideContent_cases) -> In label SLIDES.
Proof.
  intros label Hin. unfold SLIDES. cbn in Hin |- *.
  repeat (destruct Hin as [<- | Hin]; [tauto |]).
  contradiction.
Qed.

(** X13: the [case] labels of [SlideContent] are the identifiers of the
    registry, each once, in another order: no slide lacks a case and no
    case is dead. *)
Theorem case_labels_are_the_registry :
  Permutation SLIDES (map fst SlideContent_cases).
Proof.
  apply NoDup_Permutation.
  - exact SLIDES_NoDup.
  - exact case_labels_NoDup.
  - intros label. split.
    + apply SLIDES_are_case_labels.
    + apply case_labels_in_SLIDES.
Qed.

(** The component mounted at a position. *)
Lemma content_at_position (st : NavState) :
  in_bounds st ->
  nth_error
    (map (fun i => content (render {| currentSlide := Z.of_nat i; direction := 0 |}))
         (seq 0 (List.length SLIDES)))
    (Z.to_nat (currentSlide st))
  = Some (content (render st)).
Proof.
  unfold in_bounds, SLIDES_length. intros Hst.
  rewrite nth_error_map, nth_error_seq.
  destruct (Nat.ltb_spec (Z.to_nat (currentSlide st)) (List.length SLIDES)); [| lia].
  cbn [option_map render content currentSlide Nat.add].
  now rewrite Z2Nat.id by lia.
Qed.

Lemma contents_NoDup :
  NoDup
    (map (fun i => content (render {| currentSlide := Z.of_nat i; direction := 0 |}))
         (seq 0 (List.length SLIDES))).
Proof.
  vm_compute.
  repeat (constructor; [ cbn; intuition discriminate | ]).
  constructor.
Qed.

(** X14: no two positions of the registry show the same slide: two states
    within the registry that mount the same component are at the same
    position. *)
Theorem distinct_positions_distinct_slides :
  forall st1 st2 : NavState,
    0 <= currentSlide st1 < SLIDES_length ->
    0 <= currentSlide st2 < SLIDES_length ->
    content (render st1) = content (render st2) ->
    currentSlide st1 = currentSlide st2.
Proof.
  intros st1 st2 H1 H2 Hsame.
  pose proof (content_at_position st1 H1) as E1.
  pose proof (content_at_position st2 H2) as E2.
  rewrite <- Hsame in E2. rewrite <- E2 in E1.
  pose proof (proj1 (NoDup_nth_error _) contents_NoDup) as Hinj.
  apply Hinj in E1.
  - lia.
  - rewrite length_map, length_seq. unfold SLIDES_length in H1. lia.
Qed.

Lemma distinct_positions_distinct_slides_witness :
  currentSlide {| currentSlide := 9; direction := 1 |}
    = currentSlide {| currentSlide := 9; direction := -1 |}.
Proof.
  apply (distinct_positions_distinct_slides
           {| currentSlide := 9; direction := 1 |}
           {| currentSlide := 9; direction := -1 |}).
  - cbn [currentSlide]. rewrite SLIDES_length_eq. lia.
  - cbn [currentSlide]. rewrite SLIDES_length_eq. lia.
  - reflexivity.
Defined.

(** ** The progress bar *)

(** X15: in every state within the registry the fill ratio the component
    computes, a double, is above 0 and at most 1, and it is 1 exactly on the
    last slide. *)
Theorem progress_bar_never_empty :
  forall st : NavState,
    0 <= currentSlide st < SLIDES_length ->
    SFltb (binary64_of_Z 0) (progress_ratio (render st)) = true /\
    SFleb (progress_ratio (render st)) (binary64_of_Z 1) = true /\
    (SFeqb (progress_ratio (render st)) (binary64_of_Z 1) = true
       <-> currentSlide st = SLIDES_length - 1).
Proof.
  intros st Hst. apply in_bounds_positions in Hst.
  destruct st as [p d]. cbn [currentSlide] in Hst |- *.
  cbn [render progress_ratio]. cbn [map seq] in Hst.
  repeat (destruct Hst as [<- | Hst];
          [ vm_compute;
            split; [reflexivity |];
            split; [reflexivity |];
            split; intros H; first [reflexivity | discriminate H]
          | ]).
  contradiction.
Qed.

Lemma progress_bar_never_empty_witness :
  SFeqb (progress_ratio (render {| currentSlide := 17; direction := 1 |}))
    (binary64_of_Z 1) = true /\
  SFltb (binary64_of_Z 0) (progress_ratio (render initial)) = true.
Proof.
  split.
  - destruct (progress_bar_never_empty {| currentSlide := 17; direction := 1 |})
      as [_ [_ Hfull]].
    + cbn [currentSlide]. rewrite SLIDES_length_eq. lia.
    + apply Hfull. reflexivity.
  - apply (progress_bar_never_empty initial).
    unfold initial. cbn [currentSlide]. rewrite SLIDES_length_eq. lia.
Defined.

(** X16: the bar grows with the position: of two states within the
    registry, one has the strictly larger fill ratio, as doubles, if and
    only if it has the strictly larger position. *)
Theorem progress_bar_monotone :
  forall st1 st2 : NavState,
    0 <= currentSlide st1 < SLIDES_length ->
    0 <= currentSlide st2 < SLIDES_length ->
    (currentSlide st1 < currentSlide st2 <->
     SFltb (progress_ratio (render st1)) (progress_ratio (render st2)) = true).
Proof.
  intros st1 st2 H1 H2.
  apply in_bounds_positions in H1. apply in_bounds_positions in H2.
  destruct st1 as [p1 d1], st2 as [p2 d2]. cbn [currentSlide] in H1, H2 |- *.
  cbn [render progress_ratio]. cbn [map seq] in H1, H2.
  repeat (destruct H1 as [<- | H1];
          [ repeat (destruct H2 as [<- | H2];
                    [ vm_compute; split; intros H;
                      first [reflexivity | discriminate H]
                    | ]);
            contradiction
          | ]).
  contradiction.
Qed.

Lemma progress_bar_monotone_witness :
  SFltb (progress_ratio (render initial))
    (progress_ratio (render {| currentSlide := 1; direction := 1 |})) = true.
Proof.
  apply (proj1 (progress_bar_monotone initial {| currentSlide := 1; direction := 1 |}
                  ltac:(unfold initial; cbn [currentSlide]; rewrite SLIDES_length_eq; lia)
                  ltac:(cbn [currentSlide]; rewrite SLIDES_length_eq; lia))).
  unfold initial. cbn [currentSlide]. lia.
Defined.

(** X17: in every state within the registry the width percentage the
    component computes, a double, is finite, within one part in [2^52] of a
    hundred times the fraction [(p + 1) / N], and at most 100. *)
Theorem progress_width_accurate :
  forall st : NavState,
    0 <= currentSlide st < SLIDES_length ->
    within_relative (1 # 2 ^ 52) (progress_width (render st))
      (inject_Z 100 * fill_fraction (currentSlide st)) = true /\
    SFleb (progress_width (render st)) (binary64_of_Z 100) = true.
Proof.
  intros st Hst. split; [exact (proj2 (progress_bar_rounding st Hst)) |].
  apply in_bounds_positions in Hst.
  destruct st as [p d]. cbn [currentSlide] in Hst.
  cbn [render progress_width]. cbn [map seq] in Hst.
  repeat (destruct Hst as [<- | Hst]; [vm_compute; reflexivity |]).
  contradiction.
Qed.

Lemma progress_width_accurate_witness :
  within_relative (1 # 2 ^ 52) (progress_width (render initial))
    (inject_Z 100 * fill_fraction 0) = true /\
  SFleb (progress_width (render initial)) (binary64_of_Z 100) = true.
Proof.
  apply (progress_width_accurate initial).
  unfold initial. cbn [currentSlide]. rewrite SLIDES_length_eq. lia.
Defined.

(** * Side notes *)

(** X18: for every [SideNote] whose [type] and [position], where passed,
    are among the keys of the component's tables, and for any [delay]: no
    class of the element is the text [undefined], the icon is defined, and
    the note slides in from the edge it is anchored to: from 20 when its
    classes anchor it with [right-4], from -20 when they anchor it with
    [left-4], one of which always holds. *)
Theorem SideNote_enters_from_its_edge :
  forall props : SideNoteProps,
    (forall p, prop_position props = Some p -> In p (map fst SideNote_positions)) ->
    (forall t, prop_type props = Some t -> In t (map fst SideNote_colors)) ->
    includes "undefined" (note_className (SideNote props)) = false /\
    note_icon (SideNote props) <> None /\
    includes " right-4 " (note_className (SideNote props))
      = negb (includes " left-4 " (note_className (SideNote props))) /\
    note_initial_x (SideNote props)
      = (if includes " right-4 " (note_className (SideNote props)) then 20 else -20).
Proof.
  intros [type position delay] Hposition Htype.
  cbn [prop_position prop_type] in Hposition, Htype.
  assert (Hp : position = None \/ exists p, position = Some p /\ In p (map fst SideNote_positions)).
  { destruct position as [p |]; [right; exists p; auto | now left]. }
  assert (Ht : type = None \/ exists t, type = Some t /\ In t (map fst SideNote_colors)).
  { destruct type as [t |]; [right; exists t; auto | now left]. }
  clear Hposition Htype.
  destruct Hp as [-> | [p [-> Hp]]], Ht as [-> | [t [-> Ht]]];
    cbn [map fst SideNote_positions SideNote_colors In] in *;
    repeat match goal with
           | H : _ \/ _ |- _ => destruct H as [<- | H]
           | H : False |- _ => contradiction
           end;
    (vm_compute; repeat split; discriminate).
Qed.

Lemma SideNote_enters_from_its_edge_witness :
  includes "undefined"
    (note_className
       (SideNote {| prop_type := Some "tip"; prop_position := Some "bottom-right";
                    prop_delay := Some (8 # 5)%Q |})) = false /\
  note_initial_x
    (SideNote {| prop_type := Some "tip"; prop_position := Some "bottom-right";
                 prop_delay := Some (8 # 5)%Q |}) = 20.
Proof.
  destruct (SideNote_enters_from_its_edge
              {| prop_type := Some "tip"; prop_position := Some "bottom-right";
                 prop_delay := Some (8 # 5)%Q |}) as [Hclass [_ [_ Hx]]].
  - cbn. intros p [= <-]. tauto.
  - cbn. intros t [= <-]. tauto.
  - split; [exact Hclass | rewrite Hx; reflexivity].
Defined.

(** The tables are not total on strings: a position outside them writes
    [undefined] into the class list. *)
Remark SideNote_unknown_position :
  includes "undefined"
    (note_className
       (SideNote {| prop_type := None; prop_position := Some "top-right";
                    prop_delay := None |})) = true.
Proof. vm_compute. reflexivity. Qed.

(** * The keyboard subscription *)

Lemma Listener_eqb_eq (a b : Listener) : Listener_eqb a b = true <-> a = b.
Proof.
  destruct a as [ta ca], b as [tb cb]. unfold Listener_eqb. cbn [fst snd].
  rewrite andb_true_iff, String.eqb_eq, Nat.eqb_eq.
  split; [intros [-> ->]; reflexivity | intros [= -> ->]; split; reflexivity].
Qed.

Lemma addEventListener_fresh (type : string) (callback : nat) (ls : list Listener) :
  ~ In (type, callback) ls ->
  addEventListener type callback ls = (ls ++ [(type, callback)])%list.
Proof.
  intros Hfresh. unfold addEventListener.
  destruct (existsb (Listener_eqb (type, callback)) ls) eqn:E; [| reflexivity].
  apply existsb_exists in E. destruct E as [l [Hin Heq]].
  apply Listener_eqb_eq in Heq. subst l. contradiction.
Qed.

Lemma removeEventListener_last (type : string) (callback : nat) (ls : list Listener) :
  ~ In (type, callback) ls ->
  removeEventListener type callback (ls ++ [(type, callback)]) = ls.
Proof.
  induction ls as [| l ls IH]; intros Hfresh; cbn [app removeEventListener].
  - replace (Listener_eqb (type, callback) (type, callback)) with true; [reflexivity |].
    symmetry. now apply Listener_eqb_eq.
  - destruct (Listener_eqb (type, callback) l) eqn:E.
    + apply Listener_eqb_eq in E. subst l. exfalso. apply Hfresh. now left.
    + f_equal. apply IH. intros Hin. apply Hfresh. now right.
Qed.

(** X19: the cleanup the effect returns undoes its registration: on a
    [window] where this [handleKeyDown] is not yet a keydown listener, the
    effect adds it after the listeners already there, and cleanup after the
    effect gives back the listeners as they were, the others untouched. *)
Theorem keyboard_effect_cleanup_undoes :
  forall (handleKeyDown : nat) (ls : list Listener),
    ~ In ("keydown", handleKeyDown) ls ->
    fst (keyboard_effect handleKeyDown ls)
      = (ls ++ [("keydown", handleKeyDown)])%list /\
    snd (keyboard_effect handleKeyDown ls) (fst (keyboard_effect handleKeyDown ls))
      = ls.
Proof.
  intros h ls Hfresh. unfold keyboard_effect. cbn [fst snd].
  rewrite addEventListener_fresh by exact Hfresh.
  split; [reflexivity | now apply removeEventListener_last].
Qed.

Lemma keyboard_effect_cleanup_undoes_witness :
  snd (keyboard_effect 7 [("resize", 1%nat); ("keydown", 2%nat)])
      (fst (keyboard_effect 7 [("resize", 1%nat); ("keydown", 2%nat)]))
    = [("resize", 1%nat); ("keydown", 2%nat)].
Proof.
  apply (keyboard_effect_cleanup_undoes 7 [("resize", 1%nat); ("keydown", 2%nat)]).
  cbn. intros [H | [H | H]]; [discriminate H | discriminate H | exact H].
Defined.

(** The subscription while the component is mounted, after the effect ran
    for each handler of [hs] in turn. *)
Lemma lifecycle_mounted (ls : list Listener) (hs : list nat) :
  (forall h, In h hs -> ~ In ("keydown", h) ls) ->
  lifecycle (map EffectRun hs) {| listeners_of := ls; cleanup_of := None |}
    = match rev hs with
      | [] => {| listeners_of := ls; cleanup_of := None |}
      | h :: _ =>
          {| listeners_of := (ls ++ [("keydown", h)])%list;
             cleanup_of := Some (removeEventListener "keydown" h) |}
      end.
Proof.
  induction hs as [| h hs IH] using rev_ind; intros Hfresh; [reflexivity |].
  rewrite map_app, rev_app_distr. cbn [map rev app].
  unfold lifecycle in *. rewrite fold_left_app. cbn [fold_left].
  rewrite IH by (intros h' Hin; apply Hfresh, in_or_app; now left).
  assert (Hh : ~ In ("keydown", h) ls)
    by (apply Hfresh, in_or_app; right; now left).
  destruct (rev hs) as [| h' rest] eqn:Erev;
    unfold lifecycle_step; cbn [cleanup_of listeners_of keyboard_effect fst snd].
  - now rewrite addEventListener_fresh by exact Hh.
  - assert (Hh' : ~ In ("keydown", h') ls).
    { apply Hfresh, in_or_app. left. apply in_rev. rewrite Erev. now left. }
    rewrite removeEventListener_last by exact Hh'.
    now rewrite addEventListener_fresh by exact Hh.
Qed.

(** X20: over the life of the component, with the effect run for any
    sequence of handlers that are not yet keydown listeners of [window]:
    while mounted, [window] holds the listeners it had and the handler of the
    latest run, none of the earlier runs; after the unmount it holds the
    listeners it had before the component was mounted. *)
Theorem keyboard_subscription_paired :
  forall (ls : list Listener) (hs : list nat) (h : nat),
    (forall h', In h' (hs ++ [h]) -> ~ In ("keydown", h') ls) ->
    listeners_of
      (lifecycle (map EffectRun (hs ++ [h]))
         {| listeners_of := ls; cleanup_of := None |})
      = (ls ++ [("keydown", h)])%list /\
    listeners_of
      (lifecycle (map EffectRun (hs ++ [h]) ++ [Unmount])
         {| listeners_of := ls; cleanup_of := None |})
      = ls.
Proof.
  intros ls hs h Hfresh.
  assert (Hh : ~ In ("keydown", h) ls)
    by (apply Hfresh, in_or_app; right; now left).
  pose proof (lifecycle_mounted ls (hs ++ [h]) Hfresh) as Hm.
  rewrite rev_app_distr in Hm. cbn [rev app] in Hm.
  split.
  - now rewrite Hm.
  - unfold lifecycle in *. rewrite fold_left_app, Hm. cbn [fold_left].
    unfold lifecycle_step. cbn [cleanup_of listeners_of].
    now apply removeEventListener_last.
Qed.

Lemma keyboard_subscription_paired_witness :
  listeners_of
    (lifecycle (map EffectRun ([10%nat; 11%nat] ++ [12%nat]))
       {| listeners_of := [("resize", 1%nat)]; cleanup_of := None |})
    = [("resize", 1%nat); ("keydown", 12%nat)] /\
  listeners_of
    (lifecycle (map EffectRun ([10%nat; 11%nat] ++ [12%nat]) ++ [Unmount])
       {| listeners_of := [("resize", 1%nat)]; cleanup_of := None |})
    = [("resize", 1%nat)].
Proof.
  apply (keyboard_subscription_paired [("resize", 1%nat)] [10%nat; 11%nat] 12%nat).
  intros h' _ [H | H]; [discriminate H | exact H].
Defined.

(** * Events against handler calls *)

Lemma dispatch_as_calls (e : Event) (st : NavState) :
  dispatch e st = run (calls_of_event e) st.
Proof.
  destruct e as [key | | | i]; cbn [calls_of_event].
  - cbn [dispatch]. unfold handleKeyDown.
    destruct ((key =? "ArrowRight")%string || (key =? " ")%string); [reflexivity |].
    destruct (key =? "ArrowLeft")%string; reflexivity.
  - apply dispatch_ClickPrev.
  - apply dispatch_ClickNext.
  - cbn [dispatch]. rewrite dots_nth_error.
    destruct (i <? List.length SLIDES)%nat; reflexivity.
Qed.

Lemma dispatch_all_as_calls (es : list Event) :
  forall st, dispatch_all es st = run (flat_map calls_of_event es) st.
Proof.
  induction es as [| e es IH]; intros st; [reflexivity |].
  cbn [flat_map]. rewrite run_app, <- dispatch_as_calls, <- IH. reflexivity.
Qed.

(** X21: the keyboard, the buttons and the dots give the user exactly the
    states the handlers can produce: a state is the outcome of some sequence
    of events from the initial state if and only if it is the outcome of
    some sequence of handler calls from the initial state. *)
Theorem events_reach_what_calls_reach :
  forall st : NavState,
    (exists es : list Event, dispatch_all es initial = st) <->
    (exists cs : list Call, run cs initial = st).
Proof.
  intros st. split.
  - intros [es <-]. exists (flat_map calls_of_event es).
    symmetry. apply dispatch_all_as_calls.
  - intros [cs <-].
    assert (Hshape : reachable_shape (run cs initial))
      by (apply run_has_shape; now left).
    destruct (shape_is_run _ Hshape) as [p [Hp Hrun]].
    assert (Hdot : calls_of_event (ClickDot (Z.to_nat p)) = [CallGoTo p]).
    { cbn [calls_of_event].
      destruct (Nat.ltb_spec (Z.to_nat p) (List.length SLIDES)) as [_ | Hge];
        [| unfold SLIDES_length in Hp; lia].
      now rewrite Z2Nat.id by lia. }
    destruct Hrun as [H | [H | H]].
    + exists []. now rewrite H.
    + exists [ClickDot (Z.to_nat p)].
      rewrite dispatch_all_as_calls. cbn [flat_map].
      rewrite Hdot. cbn [app]. exact H.
    + exists [ClickDot (Z.to_nat p); ClickDot (Z.to_nat p)].
      rewrite dispatch_all_as_calls. cbn [flat_map].
      rewrite Hdot. cbn [app]. exact H.
Qed.

Lemma events_reach_what_calls_reach_witness :
  exists cs : list Call,
    run cs initial
      = dispatch_all [KeyDown " "; KeyDown "Tab"; ClickDot 40; ClickPrev] initial.
Proof.
  apply (proj1 (events_reach_what_calls_reach
                  (dispatch_all [KeyDown " "; KeyDown "Tab"; ClickDot 40; ClickPrev] initial))).
  eexists. reflexivity.
Defined.

(** * Calls between renders *)

(** X22: when no render has more than one call to handle, the position
    stays within the registry after every render: for every such sequence of
    [nextSlide()], [prevSlide()] and [goToSlide(x)] calls with arbitrary
    integers [x], from the initial state, [0 <= currentSlide < N]. *)
Theorem bounds_kept_one_call_per_render :
  forall bs : list (list Call),
    one_call_per_render bs ->
    0 <= currentSlide (schedule bs initial) < SLIDES_length.
Proof.
  intros bs Hone. rewrite (schedule_one_call_per_render bs Hone).
  exact (run_in_bounds (List.concat bs) initial initial_in_bounds).
Qed.

Lemma bounds_kept_one_call_per_render_witness :
  0 <= currentSlide
         (schedule [[CallGoTo 16]; [CallNext]; [CallNext]; []; [CallGoTo 99];
                    [CallPrev]] initial) < SLIDES_length.
Proof.
  apply (bounds_kept_one_call_per_render
           [[CallGoTo 16]; [CallNext]; [CallNext]; []; [CallGoTo 99]; [CallPrev]]).
  repeat constructor.
Defined.

(** X23: the round trips that hold.  With a render between the two calls,
    [nextSlide()] then [prevSlide()] returns to [p] with direction -1 for
    [0 <= p < N - 1], and [prevSlide()] then [nextSlide()] returns to [p]
    with direction +1 for [0 < p <= N - 1].  With both calls made from one
    render the same holds on the inner positions [0 < p < N - 1], where both
    guards pass on the rendered position. *)
Theorem round_trips_that_hold :
  forall p d : Z,
    (0 <= p < SLIDES_length - 1 ->
     schedule [[CallNext]; [CallPrev]] {| currentSlide := p; direction := d |}
       = {| currentSlide := p; direction := -1 |}) /\
    (0 < p <= SLIDES_length - 1 ->
     schedule [[CallPrev]; [CallNext]] {| currentSlide := p; direction := d |}
       = {| currentSlide := p; direction := 1 |}) /\
    (0 < p < SLIDES_length - 1 ->
     batch [CallNext; CallPrev] {| currentSlide := p; direction := d |}
       = {| currentSlide := p; direction := -1 |} /\
     batch [CallPrev; CallNext] {| currentSlide := p; direction := d |}
       = {| currentSlide := p; direction := 1 |}).
Proof.
  intros p d. split; [| split]; intros Hp.
  - rewrite !schedule_cons, !batch_single. cbn [schedule fold_left call].
    rewrite nextSlide_inner by (cbn [currentSlide]; lia). cbn [currentSlide].
    rewrite prevSlide_inner by (cbn [currentSlide]; lia). cbn [currentSlide].
    f_equal; lia.
  - rewrite !schedule_cons, !batch_single. cbn [schedule fold_left call].
    rewrite prevSlide_inner by (cbn [currentSlide]; lia). cbn [currentSlide].
    rewrite nextSlide_inner by (cbn [currentSlide]; lia). cbn [currentSlide].
    f_equal; lia.
  - unfold batch. cbn [fold_left call_from]. split.
    + rewrite nextSlide_from_inner by (cbn [currentSlide]; lia).
      rewrite prevSlide_from_inner by (cbn [currentSlide]; lia).
      cbn [currentSlide]. f_equal; lia.
    + rewrite prevSlide_from_inner by (cbn [currentSlide]; lia).
      rewrite nextSlide_from_inner by (cbn [currentSlide]; lia).
      cbn [currentSlide]. f_equal; lia.
Qed.

Lemma round_trips_that_hold_witness :
  schedule [[CallNext]; [CallPrev]] {| currentSlide := 0; direction := 0 |}
    = {| currentSlide := 0; direction := -1 |} /\
  schedule [[CallPrev]; [CallNext]] {| currentSlide := 17; direction := 1 |}
    = {| currentSlide := 17; direction := 1 |} /\
  batch [CallNext; CallPrev] {| currentSlide := 5; direction := 0 |}
    = {| currentSlide := 5; direction := -1 |}.
Proof.
  split; [| split].
  - apply (round_trips_that_hold 0 0). rewrite SLIDES_length_eq. lia.
  - apply (round_trips_that_hold 17 1). rewrite SLIDES_length_eq. lia.
  - apply (round_trips_that_hold 5 0). rewrite SLIDES_length_eq. lia.
Defined.

(** ** What batches of calls can reach *)





